(** * zoo_assistant: entity extraction, draft synthesis and record mapping

    A shallow embedding of
      - [core_engine/ner/entity_extraction.py]  (class [EntityExtractor])
      - [core_engine/processing_pipeline.py]    (method [_prepare_db_records])
    and the properties of the merge-and-sort stage, of the synthesis pass
    and of the draft-to-record mapper.

    Python values are modelled as follows.
      - [str]: the list of its Unicode code points ([Z]); offsets count code
        points, as Python's do.
      - [int]: [Z].
      - [float]: an IEEE-754 binary64 value, [spec_float] at precision 53.
      - [None] in an optional slot: [None] of [option].
      - the dictionaries with a fixed key set built by the code: records. *)

From Stdlib Require Import ZArith List Bool Lia String Ascii.
From Stdlib Require Import Sorted Permutation.
From Stdlib Require Import SpecFloat.
Import ListNotations.
Open Scope Z_scope.

(* ===================================================================== *)
(** * Python strings *)
(* ===================================================================== *)

Module PyStr.

Definition str := list Z.

(** ** Literals: a Rocq string literal holds UTF-8 bytes; [u] decodes them
    into code points, so that texts can be written as they appear in the
    source. *)

Fixpoint utf8_decode (bs : list Z) (need : nat) (acc : Z) : str :=
  match bs with
  | [] => []
  | b :: bs' =>
      match need with
      | O =>
          if b <? 128 then b :: utf8_decode bs' 0 0
          else if b <? 224 then utf8_decode bs' 1 (b - 192)
          else if b <? 240 then utf8_decode bs' 2 (b - 224)
          else utf8_decode bs' 3 (b - 240)
      | S O => (acc * 64 + (b - 128)) :: utf8_decode bs' 0 0
      | S n => utf8_decode bs' n (acc * 64 + (b - 128))
      end
  end.

Definition u (s : string) : str :=
  utf8_decode (map (fun a => Z.of_N (N_of_ascii a)) (list_ascii_of_string s)) 0 0.

(** ** [len], slicing *)

Definition len (s : str) : Z := Z.of_nat (List.length s).

(** A slice bound as Python normalises it: a negative bound counts from
    the end, and the result is clamped to [0 .. len]. *)
Definition slice_bound (n i : Z) : Z :=
  if i <? 0 then Z.max 0 (i + n) else Z.min i n.

(** [s[i:j]] *)
Definition slice (s : str) (i j : Z) : str :=
  let a := slice_bound (len s) i in
  let b := slice_bound (len s) j in
  firstn (Z.to_nat (b - a)) (skipn (Z.to_nat a) s).

(** ** Substring search *)

Fixpoint startswith (s sub : str) : bool :=
  match sub, s with
  | [], _ => true
  | _ :: _, [] => false
  | c :: sub', d :: s' => (c =? d) && startswith s' sub'
  end.

(** [sub in s] *)
Fixpoint contains (sub s : str) : bool :=
  startswith s sub ||
  match s with
  | [] => false
  | _ :: s' => contains sub s'
  end.

(** The lowest index [i + k] such that [sub] occurs in [s] at offset [k],
    or [-1]. *)
Fixpoint find_at (sub s : str) (i : Z) : Z :=
  if startswith s sub then i
  else match s with
       | [] => -1
       | _ :: s' => find_at sub s' (i + 1)
       end.

(** [s.find(sub)] *)
Definition find (s sub : str) : Z := find_at sub s 0.

(** [s.find(sub, start)]: the search starts at the normalised [start];
    a start beyond the end finds nothing. *)
Definition find_from (s sub : str) (start : Z) : Z :=
  let a := if start <? 0 then Z.max 0 (start + len s) else start in
  if len s <? a then -1
  else find_at sub (skipn (Z.to_nat a) s) a.

(** [s.rfind(c)] for a one-character [c]. *)
Fixpoint rfind_char_at (c : Z) (s : str) (i : Z) (last : Z) : Z :=
  match s with
  | [] => last
  | d :: s' => rfind_char_at c s' (i + 1) (if d =? c then i else last)
  end.

Definition rfind_char (s : str) (c : Z) : Z := rfind_char_at c s 0 (-1).

(** ** [strip]: the characters [str.isspace] accepts. *)

Definition isspace (c : Z) : bool :=
  ((9 <=? c) && (c <=? 13)) || ((28 <=? c) && (c <=? 32)) ||
  (c =? 133) || (c =? 160) || (c =? 5760) ||
  ((8192 <=? c) && (c <=? 8202)) || (c =? 8232) || (c =? 8233) ||
  (c =? 8239) || (c =? 8287) || (c =? 12288).

Fixpoint lstrip (s : str) : str :=
  match s with
  | [] => []
  | c :: s' => if isspace c then lstrip s' else s
  end.

Definition rstrip (s : str) : str := rev (lstrip (rev s)).

Definition strip (s : str) : str := rstrip (lstrip s).

(** ** [replace] of one character by another *)

Definition replace_char (s : str) (old new : Z) : str :=
  map (fun c => if c =? old then new else c) s.

(** ** Truth value *)

(** [bool(s)]: a string is true when it is not empty. *)
Definition truthy (s : str) : bool :=
  match s with [] => false | _ :: _ => true end.

(** ** Decimal digits: the code points of Unicode category Nd, which
    is what [\d] matches in a [str] pattern and what [float] reads as
    digits.  Each run below is made of blocks of ten consecutive code
    points carrying the digits 0 to 9. *)

Definition decimal_runs : list (Z * Z) :=
  [ (48, 57); (1632, 1641); (1776, 1785); (1984, 1993); (2406, 2415);
    (2534, 2543); (2662, 2671); (2790, 2799); (2918, 2927); (3046, 3055);
    (3174, 3183); (3302, 3311); (3430, 3439); (3558, 3567); (3664, 3673);
    (3792, 3801); (3872, 3881); (4160, 4169); (4240, 4249); (6112, 6121);
    (6160, 6169); (6470, 6479); (6608, 6617); (6784, 6793); (6800, 6809);
    (6992, 7001); (7088, 7097); (7232, 7241); (7248, 7257); (42528, 42537);
    (43216, 43225); (43264, 43273); (43472, 43481); (43504, 43513);
    (43600, 43609); (44016, 44025); (65296, 65305); (66720, 66729);
    (68912, 68921); (69734, 69743); (69872, 69881); (69942, 69951);
    (70096, 70105); (70384, 70393); (70736, 70745); (70864, 70873);
    (71248, 71257); (71360, 71369); (71472, 71481); (71904, 71913);
    (72016, 72025); (72784, 72793); (73040, 73049); (73120, 73129);
    (92768, 92777); (92864, 92873); (93008, 93017); (120782, 120831);
    (123200, 123209); (123632, 123641); (125264, 125273);
    (130032, 130041) ].

Fixpoint decimal_in (runs : list (Z * Z)) (c : Z) : option Z :=
  match runs with
  | [] => None
  | (lo, hi) :: runs' =>
      if (lo <=? c) && (c <=? hi) then Some ((c - lo) mod 10)
      else decimal_in runs' c
  end.

(** The digit a code point stands for, if it is a decimal digit. *)
Definition decimal (c : Z) : option Z := decimal_in decimal_runs c.

Definition isdecimal (c : Z) : bool :=
  match decimal c with Some _ => true | None => false end.

(** ** A case mapping for the Basic Latin, Latin-1 and Cyrillic letters.
    [str.lower] itself is a table of the interpreter; the mapper below
    takes it as a parameter, and this instance serves the examples. *)

Definition lower_char (c : Z) : Z :=
  if (65 <=? c) && (c <=? 90) then c + 32
  else if (192 <=? c) && (c <=? 222) && negb (c =? 215) then c + 32
  else if (1024 <=? c) && (c <=? 1039) then c + 80
  else if (1040 <=? c) && (c <=? 1071) then c + 32
  else c.

Definition lower_basic (s : str) : str := map lower_char s.

End PyStr.

Import PyStr.

(* ===================================================================== *)
(** * Python floats *)
(* ===================================================================== *)

Module PyFloat.

Definition float := spec_float.

Definition prec : Z := 53.
Definition emax : Z := 1024.

(** The binary64 value nearest to [m / 10^k] (ties to even): what
    [float] returns for a decimal literal with digits [m] of which [k]
    are after the point.  The division of two integer operands is
    rounded once, so the result is the correctly rounded quotient. *)
Definition of_decimal (m : Z) (k : nat) : float :=
  match m, 10 ^ Z.of_nat k with
  | Zpos pm, Zpos pd =>
      SFdiv prec emax (S754_finite false pm 0) (S754_finite false pd 0)
  | _, _ => S754_zero false
  end.

Definition of_Z (m : Z) : float := of_decimal m 0.

(** [bool(x)]: every float is true except the two zeros. *)
Definition truthy (x : float) : bool :=
  match x with
  | S754_zero _ => false
  | _ => true
  end.

End PyFloat.

(** Truth value of an optional slot: [None] is false. *)
Definition truthy_str (o : option str) : bool :=
  match o with Some s => PyStr.truthy s | None => false end.

Definition truthy_float (o : option PyFloat.float) : bool :=
  match o with Some x => PyFloat.truthy x | None => false end.

(* ===================================================================== *)
(** * Exceptions *)
(* ===================================================================== *)

Inductive exn : Type := ValueError.

Inductive result (A : Type) : Type :=
| Ok (a : A)
| Raise (e : exn).

Arguments Ok {A} a.
Arguments Raise {A} e.

Definition bind {A B : Type} (c : result A) (k : A -> result B) : result B :=
  match c with
  | Ok a => k a
  | Raise e => Raise e
  end.

Notation "x <- c ;; k" := (bind c (fun x => k))
  (at level 61, c at next level, right associativity).

(** A [for] loop that appends one element per iteration and stops at the
    first exception. *)
Fixpoint mapM {A B : Type} (f : A -> result B) (l : list A) : result (list B) :=
  match l with
  | [] => Ok []
  | a :: l' => b <- f a ;; bs <- mapM f l' ;; Ok (b :: bs)
  end.

(* ===================================================================== *)
(** * Numeric value extraction *)
(* ===================================================================== *)

Module Numeric.

Import PyFloat.

(** The longest prefix of decimal digits, and the rest. *)
Fixpoint take_digits (s : str) : str * str :=
  match s with
  | [] => ([], [])
  | c :: s' =>
      if isdecimal c then
        let (ds, r) := take_digits s' in (c :: ds, r)
      else ([], s)
  end.

Definition digit (c : Z) : Z :=
  match decimal c with Some d => d | None => 0 end.

(** The number a string of digits writes. *)
Definition digits_value (ds : str) : Z :=
  fold_left (fun a c => 10 * a + digit c) ds 0.

(** [float(s)] on the strings the extractor passes to it: digits, then
    possibly a point and further digits.  [float] accepts more than that
    (signs, exponents, blanks); on every other string this model raises,
    which can only make the extractor raise more often than it does. *)
Definition float_of_str (s : str) : result float :=
  let (ip, r) := take_digits s in
  match ip, r with
  | [], _ => Raise ValueError
  | _ :: _, [] => Ok (of_decimal (digits_value ip) 0)
  | _ :: _, c :: r' =>
      if c =? 46 then
        let (fp, r'') := take_digits r' in
        match r'' with
        | [] => Ok (of_decimal (digits_value (ip ++ fp)) (List.length fp))
        | _ :: _ => Raise ValueError
        end
      else Raise ValueError
  end.

(** [re.findall(r'\d+[.,]?\d*', s)]: the scanner is in one of three
    states, outside a match, in the integer part, or after the
    separator; the characters of the current match are kept reversed. *)
Inductive scan_state : Type :=
| Outside
| IntPart (acc : str)
| FracPart (acc : str).

Definition is_sep (c : Z) : bool := (c =? 46) || (c =? 44).

Fixpoint scan (s : str) (st : scan_state) : list str :=
  match s with
  | [] =>
      match st with
      | Outside => []
      | IntPart acc | FracPart acc => [rev acc]
      end
  | c :: s' =>
      match st with
      | Outside =>
          if isdecimal c then scan s' (IntPart [c]) else scan s' Outside
      | IntPart acc =>
          if isdecimal c then scan s' (IntPart (c :: acc))
          else if is_sep c then scan s' (FracPart (c :: acc))
          else rev acc :: scan s' Outside
      | FracPart acc =>
          if isdecimal c then scan s' (FracPart (c :: acc))
          else rev acc :: scan s' Outside
      end
  end.

Definition findall_number (s : str) : list str := scan s Outside.

(** [EntityExtractor._extract_numeric_value] *)
Definition _extract_numeric_value (match_text : str) : result (option float) :=
  let numbers := findall_number match_text in
  match numbers with
  | n :: _ =>
      x <- float_of_str (replace_char n 44 46) ;;
      Ok (Some x)
  | [] => Ok None
  end.

End Numeric.

Import Numeric.

(* ===================================================================== *)
(** * Entities *)
(* ===================================================================== *)

(** The strings that occur as [Entity.type]. *)
Inductive EntityKind : Type :=
| Person | Location | Organization
| Weight | Length | Temperature
| AnimalSpecies | Behavior | HealthStatus | Food
| Date | Time | Percentage | Age.

Definition kind_eqb (a b : EntityKind) : bool :=
  match a, b with
  | Person, Person | Location, Location | Organization, Organization
  | Weight, Weight | Length, Length | Temperature, Temperature
  | AnimalSpecies, AnimalSpecies | Behavior, Behavior
  | HealthStatus, HealthStatus | Food, Food
  | Date, Date | Time, Time | Percentage, Percentage | Age, Age => true
  | _, _ => false
  end.

(** [class Entity(BaseModel)] *)
Record Entity : Type := mkEntity {
  e_text : str;
  e_type : EntityKind;
  e_start : Z;
  e_end : Z;
  e_value : option PyFloat.float;
  e_normalized : option str
}.

(* ===================================================================== *)
(** * The collaborators of the extractor

    The statistical tagger (Natasha), the grammar parsers (Yargy) and the
    regular-expression engine are libraries; each is taken here as the
    function from a text to the spans it reports. *)
(* ===================================================================== *)

(** The span types of the tagger. *)
Inductive NerType : Type := PER | LOC | ORG.

Record NerSpan : Type := mkNerSpan {
  span_text : str;
  span_type : NerType;
  span_start : Z;
  span_stop : Z;
  span_normal : option str
}.

Class Collaborators : Type := {
  (** [doc.spans] after segmentation and tagging *)
  ner_spans : str -> list NerSpan;
  (** [match.span] of [parser.findall(text)] for each parser *)
  weight_parser : str -> list (Z * Z);
  length_parser : str -> list (Z * Z);
  temp_parser : str -> list (Z * Z);
  animal_parser : str -> list (Z * Z);
  behavior_parser : str -> list (Z * Z);
  health_parser : str -> list (Z * Z);
  food_parser : str -> list (Z * Z);
  (** [(match.start(), match.end())] of [re.finditer(pattern, text)] *)
  date_pattern : str -> list (Z * Z);
  time_pattern : str -> list (Z * Z);
  percentage_pattern : str -> list (Z * Z);
  age_pattern : str -> list (Z * Z)
}.

(* ===================================================================== *)
(** * The structured draft ([result] of [extract_animal_info]) *)
(* ===================================================================== *)

Record Measurements : Type := mkMeasurements {
  m_weight : option PyFloat.float;
  m_length : option PyFloat.float;
  m_temperature : option PyFloat.float;
  m_age : option PyFloat.float
}.

Record FeedingInfo : Type := mkFeedingInfo {
  fd_food_type : option str;
  fd_quantity : option PyFloat.float
}.

Record Environment : Type := mkEnvironment {
  env_temperature : option PyFloat.float;
  env_humidity : option PyFloat.float
}.

Record Draft : Type := mkDraft {
  name : option str;
  species : option str;
  measurements : Measurements;
  behavior : option str;
  health_status : option str;
  feeding : FeedingInfo;
  environment : Environment;
  entities : list Entity
}.

(** Assignments to one slot of the draft. *)

Definition set_name (d : Draft) (v : option str) : Draft :=
  mkDraft v (species d) (measurements d) (behavior d) (health_status d)
          (feeding d) (environment d) (entities d).

Definition set_species (d : Draft) (v : option str) : Draft :=
  mkDraft (name d) v (measurements d) (behavior d) (health_status d)
          (feeding d) (environment d) (entities d).

Definition set_measurements (d : Draft) (m : Measurements) : Draft :=
  mkDraft (name d) (species d) m (behavior d) (health_status d)
          (feeding d) (environment d) (entities d).

Definition set_weight (d : Draft) (v : option PyFloat.float) : Draft :=
  let m := measurements d in
  set_measurements d (mkMeasurements v (m_length m) (m_temperature m) (m_age m)).

Definition set_length (d : Draft) (v : option PyFloat.float) : Draft :=
  let m := measurements d in
  set_measurements d (mkMeasurements (m_weight m) v (m_temperature m) (m_age m)).

Definition set_body_temperature (d : Draft) (v : option PyFloat.float) : Draft :=
  let m := measurements d in
  set_measurements d (mkMeasurements (m_weight m) (m_length m) v (m_age m)).

Definition set_age (d : Draft) (v : option PyFloat.float) : Draft :=
  let m := measurements d in
  set_measurements d (mkMeasurements (m_weight m) (m_length m) (m_temperature m) v).

Definition set_behavior (d : Draft) (v : option str) : Draft :=
  mkDraft (name d) (species d) (measurements d) v (health_status d)
          (feeding d) (environment d) (entities d).

Definition set_health_status (d : Draft) (v : option str) : Draft :=
  mkDraft (name d) (species d) (measurements d) (behavior d) v
          (feeding d) (environment d) (entities d).

Definition set_feeding (d : Draft) (f : FeedingInfo) : Draft :=
  mkDraft (name d) (species d) (measurements d) (behavior d) (health_status d)
          f (environment d) (entities d).

Definition set_food_type (d : Draft) (v : option str) : Draft :=
  set_feeding d (mkFeedingInfo v (fd_quantity (feeding d))).

Definition set_quantity (d : Draft) (v : option PyFloat.float) : Draft :=
  set_feeding d (mkFeedingInfo (fd_food_type (feeding d)) v).

Definition set_env_temperature (d : Draft) (v : option PyFloat.float) : Draft :=
  mkDraft (name d) (species d) (measurements d) (behavior d) (health_status d)
          (feeding d)
          (mkEnvironment v (env_humidity (environment d))) (entities d).

(** The dictionary [extract_animal_info] starts from. *)
Definition initial_draft (entities : list Entity) : Draft :=
  mkDraft None None (mkMeasurements None None None None) None None
          (mkFeedingInfo None None) (mkEnvironment None None) entities.

(* ===================================================================== *)
(** * [EntityExtractor] *)
(* ===================================================================== *)

(** ** [entities.sort(key=lambda e: e.start)]

    [list.sort] is stable, and a list has one stable sorted arrangement
    (lemma [stable_sort_unique] below); inserting the elements from the
    right, each before the first element whose key is not smaller, builds
    it. *)

Fixpoint insert_by_start (e : Entity) (l : list Entity) : list Entity :=
  match l with
  | [] => [e]
  | x :: l' =>
      if e_start e <=? e_start x then e :: l
      else x :: insert_by_start e l'
  end.

Definition sort_by_start (l : list Entity) : list Entity :=
  fold_right insert_by_start [] l.

Section Extractor.

Context {C : Collaborators}.

Definition carries_number (entity_type : EntityKind) : bool :=
  match entity_type with
  | Weight | Length | Temperature => true
  | _ => false
  end.

(** [_extract_with_parser] *)
Definition _extract_with_parser (text : str) (parser : str -> list (Z * Z))
           (entity_type : EntityKind) : result (list Entity) :=
  mapM (fun span : Z * Z =>
          let (start, stop) := span in
          let match_text := slice text start stop in
          value <- (if carries_number entity_type
                    then _extract_numeric_value match_text
                    else Ok None) ;;
          Ok (mkEntity match_text entity_type start stop value None))
       (parser text).

(** [_extract_custom_entities] *)
Definition _extract_custom_entities (text : str) : result (list Entity) :=
  weight_entities <- _extract_with_parser text weight_parser Weight ;;
  length_entities <- _extract_with_parser text length_parser Length ;;
  temp_entities <- _extract_with_parser text temp_parser Temperature ;;
  animal_entities <- _extract_with_parser text animal_parser AnimalSpecies ;;
  behavior_entities <- _extract_with_parser text behavior_parser Behavior ;;
  health_entities <- _extract_with_parser text health_parser HealthStatus ;;
  food_entities <- _extract_with_parser text food_parser Food ;;
  Ok (weight_entities ++ length_entities ++ temp_entities ++ animal_entities
      ++ behavior_entities ++ health_entities ++ food_entities).

(** [_extract_natasha_entities] *)
Definition _extract_natasha_entities (text : str) : list Entity :=
  map (fun span =>
         let entity_type :=
           match span_type span with
           | PER => Person
           | LOC => Location
           | ORG => Organization
           end in
         mkEntity (span_text span) entity_type (span_start span)
                  (span_stop span) None (span_normal span))
      (ner_spans text).

(** One loop of [_extract_regex_entities]; [with_value] tells whether the
    loop computes a value from the matched text. *)
Definition regex_entities (text : str) (matches : list (Z * Z))
           (entity_type : EntityKind) (with_value : bool) : result (list Entity) :=
  mapM (fun span : Z * Z =>
          let (start, stop) := span in
          let group := slice text start stop in
          value <- (if with_value then _extract_numeric_value group
                    else Ok None) ;;
          Ok (mkEntity group entity_type start stop value None))
       matches.

(** [_extract_regex_entities] *)
Definition _extract_regex_entities (text : str) : result (list Entity) :=
  dates <- regex_entities text (date_pattern text) Date false ;;
  times <- regex_entities text (time_pattern text) Time false ;;
  percentages <- regex_entities text (percentage_pattern text) Percentage true ;;
  ages <- regex_entities text (age_pattern text) Age true ;;
  Ok (dates ++ times ++ percentages ++ ages).

(** The entities before the sort, in the order the extractors run. *)
Definition collected_entities (text : str) : result (list Entity) :=
  let natasha_entities := _extract_natasha_entities text in
  custom_entities <- _extract_custom_entities text ;;
  regex_entities <- _extract_regex_entities text ;;
  Ok (natasha_entities ++ custom_entities ++ regex_entities).

(** [extract_entities] *)
Definition extract_entities (text : str) : result (list Entity) :=
  entities <- collected_entities text ;;
  Ok (sort_by_start entities).

End Extractor.

(** ** The synthesis pass of [extract_animal_info] *)

(** The word looked for around a temperature. *)
Definition body_marker : str := u "тела".

(** [text[max(0, entity.start-10):entity.end+10]] *)
Definition temperature_window (text : str) (entity : Entity) : str :=
  slice text (Z.max 0 (e_start entity - 10)) (e_end entity + 10).

(** One iteration of the loop over the entities. *)
Definition synth_step (text : str) (result : Draft) (entity : Entity) : Draft :=
  match e_type entity with
  | Person =>
      match name result with
      | None => set_name result (Some (e_text entity))
      | Some _ => result
      end
  | AnimalSpecies =>
      match species result with
      | None => set_species result (Some (e_text entity))
      | Some _ => result
      end
  | Weight =>
      match m_weight (measurements result) with
      | None => set_weight result (e_value entity)
      | Some _ => result
      end
  | Length =>
      match m_length (measurements result) with
      | None => set_length result (e_value entity)
      | Some _ => result
      end
  | Temperature =>
      if contains body_marker (temperature_window text entity)
      then set_body_temperature result (e_value entity)
      else set_env_temperature result (e_value entity)
  | Age =>
      match m_age (measurements result) with
      | None => set_age result (e_value entity)
      | Some _ => result
      end
  | Behavior =>
      match behavior result with
      | None => set_behavior result (Some (e_text entity))
      | Some _ => result
      end
  | HealthStatus =>
      match health_status result with
      | None => set_health_status result (Some (e_text entity))
      | Some _ => result
      end
  | Food =>
      match fd_food_type (feeding result) with
      | None => set_food_type result (Some (e_text entity))
      | Some _ => result
      end
  | Location | Organization | Date | Time | Percentage => result
  end.

Definition is_kind (k : EntityKind) (e : Entity) : bool := kind_eqb (e_type e) k.

(** [next((e for e in entities if e.type == 'food'), None)] *)
Definition first_food (entities : list Entity) : option Entity :=
  List.find (is_kind Food) entities.

(** [entity.type == 'weight' and abs(entity.start - food_entity.start) < 20] *)
Definition near_weight (food_entity entity : Entity) : bool :=
  is_kind Weight entity && (Z.abs (e_start entity - e_start food_entity) <? 20).

(** The loop that looks for the quantity; it stops at the first hit. *)
Fixpoint quantity_scan (food_entity : Entity) (entities : list Entity)
         (result : Draft) : Draft :=
  match entities with
  | [] => result
  | entity :: rest =>
      if near_weight food_entity entity
      then set_quantity result (e_value entity)
      else quantity_scan food_entity rest result
  end.

(** The body of [extract_animal_info] once the entities are known.  The
    test [if food_entity:] is that of an [Entity] object, which is true
    whenever there is one. *)
Definition synthesize (text : str) (entities : list Entity) : Draft :=
  let result := initial_draft entities in
  let result := fold_left (synth_step text) entities result in
  match first_food entities with
  | Some food_entity => quantity_scan food_entity entities result
  | None => result
  end.

(** [extract_animal_info] *)
Definition extract_animal_info {C : Collaborators} (text : str) : result Draft :=
  entities <- extract_entities text ;;
  Ok (synthesize text entities).

(* ===================================================================== *)
(** * [ProcessingPipeline._prepare_db_records] *)
(* ===================================================================== *)

Record AnimalRecord : Type := mkAnimalRecord {
  a_name : str;
  a_species : str
}.

Record ObservationRecord : Type := mkObservationRecord {
  o_behavior : option str;
  o_health_status : option str;
  o_notes : str;
  o_audio_file : str;
  o_transcription : str;
  o_temperature : option PyFloat.float;
  o_humidity : option PyFloat.float
}.

Record MeasurementRecord : Type := mkMeasurementRecord {
  r_weight : option PyFloat.float;
  r_length : option PyFloat.float;
  r_height : option PyFloat.float;
  r_temperature : option PyFloat.float
}.

Record FeedingRecord : Type := mkFeedingRecord {
  f_food_type : option str;
  f_quantity : option PyFloat.float;
  f_notes : option str
}.

Record DbRecords : Type := mkDbRecords {
  db_animal : AnimalRecord;
  db_observation : ObservationRecord;
  db_measurement : option MeasurementRecord;
  db_feeding : option FeedingRecord
}.

(** [os.path.basename]: what follows the last slash. *)
Definition basename (p : str) : str :=
  let i := rfind_char p 47 + 1 in
  slice p i (len p).

(** [x or "Unknown"] *)
Definition or_unknown (x : option str) : str :=
  if truthy_str x then
    match x with Some s => s | None => u "Unknown" end
  else u "Unknown".

Definition observation_pattern : str := u "наблюдение за".

Section Mapper.

(** [str.lower] *)
Variable lower : str -> str.

(** The text after the pattern, up to the end the code computes. *)
Definition animal_text_of (transcription : str) : str :=
  let start_idx :=
    find (lower transcription) observation_pattern + len observation_pattern in
  let end_idx := find_from transcription (u ".") start_idx in
  let end_idx :=
    if end_idx =? -1 then find_from transcription (u ",") start_idx
    else end_idx in
  let end_idx := if end_idx =? -1 then len transcription else end_idx in
  strip (slice transcription start_idx end_idx).

(** The species after the fallback on the transcription. *)
Definition fallback_species (animal_name animal_species : option str)
           (transcription : str) : option str :=
  if negb (truthy_str animal_name) || negb (truthy_str animal_species) then
    if contains observation_pattern (lower transcription) then
      let animal_text := animal_text_of transcription in
      if PyStr.truthy animal_text && negb (truthy_str animal_species)
      then Some animal_text
      else animal_species
    else animal_species
  else animal_species.

(** [structured_data] is the dictionary [extract_animal_info] returns, so
    every key the method reads with [get] is there. *)
Definition _prepare_db_records (structured_data : Draft)
           (audio_path transcription : str) : DbRecords :=
  let animal_name := name structured_data in
  let animal_species := species structured_data in
  let animal_species :=
    fallback_species animal_name animal_species transcription in
  let animal_record :=
    mkAnimalRecord (or_unknown animal_name) (or_unknown animal_species) in
  let observation_record :=
    mkObservationRecord
      (behavior structured_data)
      (health_status structured_data)
      transcription
      (basename audio_path)
      transcription
      (env_temperature (environment structured_data))
      (env_humidity (environment structured_data)) in
  let measurements := measurements structured_data in
  let measurement_record :=
    if truthy_float (m_weight measurements)
       || truthy_float (m_length measurements)
       || truthy_float (m_temperature measurements)
       || truthy_float (m_age measurements)
    then Some (mkMeasurementRecord
                 (m_weight measurements)
                 (m_length measurements)
                 None
                 (m_temperature measurements))
    else None in
  let feeding := feeding structured_data in
  let feeding_record :=
    if truthy_str (fd_food_type feeding) || truthy_float (fd_quantity feeding)
    then Some (mkFeedingRecord
                 (fd_food_type feeding)
                 (fd_quantity feeding)
                 None)
    else None in
  mkDbRecords animal_record observation_record measurement_record
              feeding_record.

End Mapper.

(* ===================================================================== *)
(** * Reference definitions

    What the properties below compare the code with. *)
(* ===================================================================== *)

(** ** The first numeric literal of a span: skip to the first digit, read
    the digits, and, if a point or a comma follows, read it and the digits
    after it.  The result is the integer the digits write once the
    separator is dropped, and the number of digits after the separator. *)

Fixpoint skip_to_digit (s : str) : str :=
  match s with
  | [] => []
  | c :: s' => if isdecimal c then s else skip_to_digit s'
  end.

Definition first_literal (span : str) : option (Z * nat) :=
  let (ip, r) := take_digits (skip_to_digit span) in
  match ip with
  | [] => None
  | _ :: _ =>
      match r with
      | c :: r' =>
          if is_sep c then
            let (fp, _) := take_digits r' in
            Some (digits_value (ip ++ fp), List.length fp)
          else Some (digits_value ip, O)
      | [] => Some (digits_value ip, O)
      end
  end.

(** The float the literal denotes. *)
Definition numeric_value (span : str) : option PyFloat.float :=
  match first_literal span with
  | Some (m, k) => Some (PyFloat.of_decimal m k)
  | None => None
  end.

(** A string that does not start with a digit. *)
Definition no_leading_digit (s : str) : bool :=
  match s with
  | [] => true
  | c :: _ => negb (isdecimal c)
  end.

(** What a match of the number pattern reads after its first digit. *)
Definition literal_tail (s : str) : str :=
  let (ip, r) := take_digits s in
  ip ++ match r with
        | c :: r' => if is_sep c then c :: fst (take_digits r') else []
        | [] => []
        end.

(** ** Order and ties of entities *)

Definition le_start (a b : Entity) : Prop := e_start a <= e_start b.

(** The entities of a list that start at [s], in the order of the list. *)
Definition starting_at (s : Z) (l : list Entity) : list Entity :=
  filter (fun e => e_start e =? s) l.

(** ** The entities the extractors return, as lists *)

(** The entities built from the spans of one parser or pattern;
    [with_value] tells whether the value is read from the matched text. *)
Definition span_entities (text : str) (spans : list (Z * Z))
           (entity_type : EntityKind) (with_value : bool) : list Entity :=
  map (fun span : Z * Z =>
         let (start, stop) := span in
         let match_text := slice text start stop in
         mkEntity match_text entity_type start stop
                  (if with_value then numeric_value match_text else None)
                  None)
      spans.

Definition custom_entities_of {C : Collaborators} (text : str) : list Entity :=
  span_entities text (weight_parser text) Weight true
  ++ span_entities text (length_parser text) Length true
  ++ span_entities text (temp_parser text) Temperature true
  ++ span_entities text (animal_parser text) AnimalSpecies false
  ++ span_entities text (behavior_parser text) Behavior false
  ++ span_entities text (health_parser text) HealthStatus false
  ++ span_entities text (food_parser text) Food false.

Definition regex_entities_of {C : Collaborators} (text : str) : list Entity :=
  span_entities text (date_pattern text) Date false
  ++ span_entities text (time_pattern text) Time false
  ++ span_entities text (percentage_pattern text) Percentage true
  ++ span_entities text (age_pattern text) Age true.

(** ** First match *)

(** The first entity of a kind. *)
Definition first_of (k : EntityKind) (es : list Entity) : option Entity :=
  List.find (is_kind k) es.

(** The first thing present among what the entities of kind [k] carry. *)
Fixpoint first_present {A : Type} (k : EntityKind) (proj : Entity -> option A)
         (es : list Entity) : option A :=
  match es with
  | [] => None
  | e :: es' =>
      if is_kind k e then
        match proj e with
        | Some v => Some v
        | None => first_present k proj es'
        end
      else first_present k proj es'
  end.

Definition text_of (e : Entity) : option str := Some (e_text e).

(** ** The feeding join, in the spec's words: a weight entity whose start
    is less than 20 positions away from the start of the food entity, on
    either side. *)
Definition weight_within_threshold (food_entity w : Entity) : bool :=
  is_kind Weight w
  && (e_start food_entity - 20 <? e_start w)
  && (e_start w <? e_start food_entity + 20).

(** ** The two temperature slots of a draft, and what one temperature
    entity does to them. *)
Definition temperature_slots (d : Draft)
  : option PyFloat.float * option PyFloat.float :=
  (m_temperature (measurements d), env_temperature (environment d)).

Definition near_body_marker (text : str) (e : Entity) : bool :=
  contains body_marker (temperature_window text e).

Definition route_temperature (text : str)
           (slots : option PyFloat.float * option PyFloat.float) (e : Entity)
  : option PyFloat.float * option PyFloat.float :=
  if near_body_marker text e then (e_value e, snd slots)
  else (fst slots, e_value e).

(** A numeric slot that takes the value of the first entity of kind [k]:
    it holds the first value present among the entities of that kind, which
    is the value of the first of them whenever that one carries a value. *)
Definition takes_first_value (k : EntityKind) (es : list Entity)
           (slot : option PyFloat.float) : Prop :=
  slot = first_present k e_value es /\
  (forall e, first_of k es = Some e -> e_value e <> None -> slot = e_value e) /\
  (first_of k es = None -> slot = None).

(** ** Collaborators for the examples: the temperature parser reports
    the given spans and nothing else is found. *)
Definition temperature_only (spans : list (Z * Z)) : Collaborators :=
  let nothing := fun _ : str => @nil (Z * Z) in
  {| ner_spans := fun _ => [];
     weight_parser := nothing;
     length_parser := nothing;
     temp_parser := fun _ => spans;
     animal_parser := nothing;
     behavior_parser := nothing;
     health_parser := nothing;
     food_parser := nothing;
     date_pattern := nothing;
     time_pattern := nothing;
     percentage_pattern := nothing;
     age_pattern := nothing |}.

(** ** The species label of the mapper's fallback *)

(** The transcription from just after the first occurrence of the pattern
    in the lowered transcription. *)
Definition after_marker (lower : str -> str) (transcription : str) : str :=
  skipn (Z.to_nat (find (lower transcription) observation_pattern
                   + len observation_pattern))
        transcription.

(** The text before the first character that is a point or a comma, or the
    whole text when it holds neither: the label as the spec words it
    ("whichever comes first"). *)
Fixpoint up_to_terminator (s : str) : str :=
  match s with
  | [] => []
  | c :: s' => if (c =? 46) || (c =? 44) then [] else c :: up_to_terminator s'
  end.

(** The text before the first [c], when there is one. *)
Fixpoint up_to_char (c : Z) (s : str) : option str :=
  match s with
  | [] => None
  | d :: s' =>
      if d =? c then Some []
      else match up_to_char c s' with
           | Some p => Some (d :: p)
           | None => None
           end
  end.

(** The text before the first point; without a point, the text before the
    first comma; without either, the whole text. *)
Definition up_to_point_else_comma (s : str) : str :=
  match up_to_char 46 s with
  | Some p => p
  | None =>
      match up_to_char 44 s with
      | Some p => p
      | None => s
      end
  end.

(** Collaborators for the examples: the weight parser reports the given
    spans and nothing else is found. *)
Definition weight_only (spans : list (Z * Z)) : Collaborators :=
  let nothing := fun _ : str => @nil (Z * Z) in
  {| ner_spans := fun _ => [];
     weight_parser := fun _ => spans;
     length_parser := nothing;
     temp_parser := nothing;
     animal_parser := nothing;
     behavior_parser := nothing;
     health_parser := nothing;
     food_parser := nothing;
     date_pattern := nothing;
     time_pattern := nothing;
     percentage_pattern := nothing;
     age_pattern := nothing |}.

(** Collaborators of which only the age pattern reports matches. *)
Definition age_only (spans : list (Z * Z)) : Collaborators :=
  let nothing := fun _ : str => @nil (Z * Z) in
  {| ner_spans := fun _ => [];
     weight_parser := nothing;
     length_parser := nothing;
     temp_parser := nothing;
     animal_parser := nothing;
     behavior_parser := nothing;
     health_parser := nothing;
     food_parser := nothing;
     date_pattern := nothing;
     time_pattern := nothing;
     percentage_pattern := nothing;
     age_pattern := fun _ => spans |}.

(** The Measurement payload without any value. *)
Definition empty_measurement : MeasurementRecord :=
  mkMeasurementRecord None None None None.

(** ** Kinds of entities *)

(** The kinds for which an extractor reads a value from the matched text. *)
Definition numeric_kind (k : EntityKind) : bool :=
  match k with
  | Weight | Length | Temperature | Percentage | Age => true
  | _ => false
  end.

(** The kinds the statistical tagger produces. *)
Definition tagger_kind (k : EntityKind) : bool :=
  match k with
  | Person | Location | Organization => true
  | _ => false
  end.

(** The kinds the synthesis loop reads. *)
Definition draft_kind (k : EntityKind) : bool :=
  match k with
  | Location | Organization | Date | Time | Percentage => false
  | _ => true
  end.

(** The spans reported for a kind: those of the tagger with the matching
    span type, or those of the parser or pattern of the kind. *)
Definition ner_spans_of {C : Collaborators} (text : str) (t : NerType)
  : list (Z * Z) :=
  map (fun sp => (span_start sp, span_stop sp))
      (filter (fun sp => match span_type sp, t with
                         | PER, PER | LOC, LOC | ORG, ORG => true
                         | _, _ => false
                         end)
              (ner_spans text)).

Definition spans_of_kind {C : Collaborators} (text : str) (k : EntityKind)
  : list (Z * Z) :=
  match k with
  | Person => ner_spans_of text PER
  | Location => ner_spans_of text LOC
  | Organization => ner_spans_of text ORG
  | Weight => weight_parser text
  | Length => length_parser text
  | Temperature => temp_parser text
  | AnimalSpecies => animal_parser text
  | Behavior => behavior_parser text
  | HealthStatus => health_parser text
  | Food => food_parser text
  | Date => date_pattern text
  | Time => time_pattern text
  | Percentage => percentage_pattern text
  | Age => age_pattern text
  end.

(** What holds of every entity extracted from [text]. *)
Definition entity_wf (text : str) (e : Entity) : Prop :=
  (e_value e <> None -> numeric_kind (e_type e) = true) /\
  (e_normalized e <> None -> tagger_kind (e_type e) = true) /\
  (tagger_kind (e_type e) = false ->
   e_text e = slice text (e_start e) (e_end e)) /\
  (numeric_kind (e_type e) = true -> e_value e = numeric_value (e_text e)).

(** Two drafts with the same slots, whatever entities they list. *)
Definition same_slots (d d' : Draft) : Prop :=
  name d = name d' /\
  species d = species d' /\
  measurements d = measurements d' /\
  behavior d = behavior d' /\
  health_status d = health_status d' /\
  feeding d = feeding d' /\
  environment d = environment d'.

(** The last entity of a list that satisfies [P]. *)
Fixpoint last_match (P : Entity -> bool) (es : list Entity) : option Entity :=
  match es with
  | [] => None
  | e :: es' =>
      match last_match P es' with
      | Some x => Some x
      | None => if P e then Some e else None
      end
  end.

(** The temperature entities routed to the body slot, and those routed to
    the environment slot. *)
Definition routed_to_body (text : str) (e : Entity) : bool :=
  is_kind Temperature e && near_body_marker text e.

Definition routed_to_environment (text : str) (e : Entity) : bool :=
  is_kind Temperature e && negb (near_body_marker text e).

(** The value an optional entity carries. *)
Definition value_of (o : option Entity) : option PyFloat.float :=
  match o with
  | Some e => e_value e
  | None => None
  end.

(** A draft with another list of entities. *)
Definition set_entities (d : Draft) (l : list Entity) : Draft :=
  mkDraft (name d) (species d) (measurements d) (behavior d) (health_status d)
          (feeding d) (environment d) l.

(** ** Shapes of strings *)

(** [a] is a contiguous part of [b]. *)
Definition part_of (a b : str) : Prop :=
  exists pre post, b = pre ++ a ++ post.

(** Neither the first nor the last character is a blank. *)
Definition no_outer_blank (s : str) : Prop :=
  match s with [] => True | c :: _ => isspace c = false end /\
  match rev s with [] => True | c :: _ => isspace c = false end.

(* ===================================================================== *)
(** * [ProcessingPipeline.process_audio] and [save_to_database] *)
(* ===================================================================== *)

(** What can make the pipeline raise: the recognizer (missing file, wrong
    audio format), the extractor, and the database when it refuses a row. *)
Inductive failure : Type :=
| RecognizerError
| ExtractorError (e : exn)
| IntegrityError.

Inductive outcome (A : Type) : Type :=
| Returned (a : A)
| Raised (f : failure).

Arguments Returned {A} a.
Arguments Raised {A} f.

(** [TranscriptionResult], with the fields the pipeline reads ([segments]
    and [wer] are carried along by the recognizer and never read here). *)
Record TranscriptionResult : Type := mkTranscriptionResult {
  tr_text : str;
  tr_processing_time : PyFloat.float;
  tr_audio_duration : PyFloat.float
}.

(** [AudioProcessingResult] *)
Record AudioProcessingResult : Type := mkAudioProcessingResult {
  apr_audio_file : str;
  apr_transcription : str;
  apr_processing_time : PyFloat.float;
  apr_audio_duration : PyFloat.float;
  apr_entities : list Entity;
  apr_structured_data : Draft;
  apr_db_records : DbRecords
}.

(** [process_audio].  [recognizer] is [self.recognizer.process_audio],
    [None] when it raises; [total_time] is the difference of the two
    readings of [time.time()]. *)
Definition process_audio {C : Collaborators} (lower : str -> str)
           (recognizer : str -> option TranscriptionResult)
           (total_time : PyFloat.float) (audio_path : str)
  : outcome AudioProcessingResult :=
  match recognizer audio_path with
  | None => Raised RecognizerError
  | Some transcription_result =>
      let transcription := tr_text transcription_result in
      match extract_animal_info transcription with
      | Raise e => Raised (ExtractorError e)
      | Ok structured_data =>
          let db_records :=
            _prepare_db_records lower structured_data audio_path transcription in
          Returned
            (mkAudioProcessingResult
               audio_path
               transcription
               total_time
               (tr_audio_duration transcription_result)
               (entities structured_data)
               structured_data
               db_records)
      end
  end.

(** ** The tables of [db/models.py] that [save_to_database] writes.  A
    column that is not nullable has the type of its values, a nullable one
    an [option]; time stamps are readings of the clock. *)

Record AnimalRow : Type := mkAnimalRow {
  an_id : Z;
  an_name : str;
  an_species : str;
  an_age : option PyFloat.float;
  an_enclosure : option str;
  an_created_at : Z;
  an_updated_at : Z
}.

Record ObservationRow : Type := mkObservationRow {
  ob_id : Z;
  ob_animal_id : option Z;
  ob_observer : option str;
  ob_behavior : option str;
  ob_health_status : option str;
  ob_notes : option str;
  ob_temperature : option PyFloat.float;
  ob_humidity : option PyFloat.float;
  ob_timestamp : Z;
  ob_audio_file : option str;
  ob_transcription : option str
}.

Record MeasurementRow : Type := mkMeasurementRow {
  ms_id : Z;
  ms_animal_id : option Z;
  ms_weight : option PyFloat.float;
  ms_length : option PyFloat.float;
  ms_height : option PyFloat.float;
  ms_temperature : option PyFloat.float;
  ms_timestamp : Z
}.

Record FeedingRow : Type := mkFeedingRow {
  fe_id : Z;
  fe_animal_id : option Z;
  fe_food_type : str;
  fe_quantity : PyFloat.float;
  fe_timestamp : Z;
  fe_notes : option str
}.

Record Database : Type := mkDatabase {
  animals : list AnimalRow;
  observations : list ObservationRow;
  measurements_table : list MeasurementRow;
  feedings : list FeedingRow
}.

(** The dictionary [save_to_database] returns. *)
Record SavedIds : Type := mkSavedIds {
  saved_animal_id : Z;
  saved_observation_id : Z
}.

(** Equality of strings, as the filter of the query compares them. *)
Fixpoint str_eqb (s t : str) : bool :=
  match s, t with
  | [], [] => true
  | c :: s', d :: t' => (c =? d) && str_eqb s' t'
  | _, _ => false
  end.

(** [Animal.name == animal_name, Animal.species == animal_species] *)
Definition same_identity (animal_name animal_species : str) (a : AnimalRow)
  : bool :=
  str_eqb (an_name a) animal_name && str_eqb (an_species a) animal_species.

Section Persistence.

(** The primary key the database gives a new row of a table, from the keys
    the table holds. *)
Variable next_id : list Z -> Z.

(** The readings of [datetime.utcnow()] during the call, in order. *)
Variable clock : nat -> Z.

(** [save_to_database].  The session is the database with the rows added so
    far; [first()] takes the first matching row of the table; the commit
    refuses a Feeding row whose [food_type] or [quantity] is null (both
    columns are declared [nullable=False]), the handler then rolls back,
    which leaves the database as it was, and raises again. *)
Definition save_to_database (db : Database) (result : AudioProcessingResult)
  : outcome SavedIds * Database :=
  let records := apr_db_records result in
  let animal_name := a_name (db_animal records) in
  let animal_species := a_species (db_animal records) in
  let found := List.find (same_identity animal_name animal_species) (animals db) in
  let animal :=
    match found with
    | Some a => a
    | None =>
        mkAnimalRow (next_id (map an_id (animals db)))
                    animal_name animal_species None None (clock 0) (clock 1)
    end in
  let animals' :=
    match found with
    | Some _ => animals db
    | None => animals db ++ [animal]
    end in
  let t := match found with Some _ => O | None => 2%nat end in
  let observation_data := db_observation records in
  let observation :=
    mkObservationRow
      (next_id (map ob_id (observations db)))
      (Some (an_id animal))
      None
      (o_behavior observation_data)
      (o_health_status observation_data)
      (Some (o_notes observation_data))
      (o_temperature observation_data)
      (o_humidity observation_data)
      (clock t)
      (Some (o_audio_file observation_data))
      (Some (o_transcription observation_data)) in
  let measurements' :=
    match db_measurement records with
    | Some measurement_data =>
        measurements_table db
        ++ [mkMeasurementRow
              (next_id (map ms_id (measurements_table db)))
              (Some (an_id animal))
              (r_weight measurement_data)
              (r_length measurement_data)
              (r_height measurement_data)
              (r_temperature measurement_data)
              (clock (S t))]
    | None => measurements_table db
    end in
  let t' := match db_measurement records with Some _ => S (S t) | None => S t end in
  let saved := mkSavedIds (an_id animal) (ob_id observation) in
  match db_feeding records with
  | None =>
      (Returned saved,
       mkDatabase animals' (observations db ++ [observation]) measurements'
                  (feedings db))
  | Some feeding_data =>
      match f_food_type feeding_data, f_quantity feeding_data with
      | Some food_type, Some quantity =>
          (Returned saved,
           mkDatabase animals' (observations db ++ [observation]) measurements'
                      (feedings db
                       ++ [mkFeedingRow
                             (next_id (map fe_id (feedings db)))
                             (Some (an_id animal))
                             food_type quantity (clock t')
                             (f_notes feeding_data)]))
      | _, _ => (Raised IntegrityError, db)
      end
  end.

End Persistence.

(** [process_audio_task] of the API, its job bookkeeping apart: process the
    file, then save the result. *)
Definition process_and_save {C : Collaborators} (lower : str -> str)
           (recognizer : str -> option TranscriptionResult)
           (total_time : PyFloat.float)
           (next_id : list Z -> Z) (clock : nat -> Z)
           (db : Database) (file_path : str)
  : outcome SavedIds * Database :=
  match process_audio lower recognizer total_time file_path with
  | Returned result => save_to_database next_id clock db result
  | Raised f => (Raised f, db)
  end.

(** ** What the properties of the persistence step speak of *)

(** A Feeding payload that lacks the food type or the quantity. *)
Definition feeding_incomplete (records : DbRecords) : bool :=
  match db_feeding records with
  | Some feeding_data =>
      match f_food_type feeding_data, f_quantity feeding_data with
      | Some _, Some _ => false
      | _, _ => true
      end
  | None => false
  end.

(** Every row has a key of its own. *)
Definition keys_unique (db : Database) : Prop :=
  NoDup (map an_id (animals db)) /\
  NoDup (map ob_id (observations db)) /\
  NoDup (map ms_id (measurements_table db)) /\
  NoDup (map fe_id (feedings db)).

(** Every observation, measurement and feeding refers to an animal of the
    table. *)
Definition refers_to_animal (db : Database) (animal_id : option Z) : Prop :=
  exists a, In a (animals db) /\ animal_id = Some (an_id a).

Definition references_hold (db : Database) : Prop :=
  Forall (fun o => refers_to_animal db (ob_animal_id o)) (observations db) /\
  Forall (fun m => refers_to_animal db (ms_animal_id m)) (measurements_table db) /\
  Forall (fun f => refers_to_animal db (fe_animal_id f)) (feedings db).

(** No two animals have the same name and species. *)
Definition identities_unique (db : Database) : Prop :=
  NoDup (map (fun a => (an_name a, an_species a)) (animals db)).

(** A key generator never gives a key the table holds. *)
Definition fresh_keys (next_id : list Z -> Z) : Prop :=
  forall ids, ~ In (next_id ids) ids.

(** The generator of an integer primary key: one more than the largest. *)
Definition next_after_max (ids : list Z) : Z :=
  fold_right Z.max 0 ids + 1.

(** Collaborators for the examples: the food parser reports the given
    spans and nothing else is found. *)
Definition food_only (spans : list (Z * Z)) : Collaborators :=
  let nothing := fun _ : str => @nil (Z * Z) in
  {| ner_spans := fun _ => [];
     weight_parser := nothing;
     length_parser := nothing;
     temp_parser := nothing;
     animal_parser := nothing;
     behavior_parser := nothing;
     health_parser := nothing;
     food_parser := fun _ => spans;
     date_pattern := nothing;
     time_pattern := nothing;
     percentage_pattern := nothing;
     age_pattern := nothing |}.

(** A recognizer that hears [text] in every file, and an empty database. *)
Definition hears (text : str) (_ : str) : option TranscriptionResult :=
  Some (mkTranscriptionResult text (PyFloat.of_Z 1) (PyFloat.of_Z 3)).

Definition empty_database : Database := mkDatabase [] [] [] [].

(** A result for the examples: nothing was found in "Тигр спит.". *)
Definition quiet_result : AudioProcessingResult :=
  mkAudioProcessingResult
    (u "obs.wav") (u "Тигр спит.") (PyFloat.of_Z 1) (PyFloat.of_Z 3) []
    (initial_draft [])
    (_prepare_db_records lower_basic (initial_draft []) (u "obs.wav")
       (u "Тигр спит.")).

(** A clock for the examples: the n-th reading is n. *)
Definition ticking (n : nat) : Z := Z.of_nat n.

(** ** Floats that are numbers and not negative: [+0.0], a positive finite
    float, or [+inf]. *)
Definition nonnegative_number (x : PyFloat.float) : bool :=
  match x with
  | S754_zero false | S754_finite false _ _ | S754_infinity false => true
  | _ => false
  end.

(** The values the entities of a list carry are such floats. *)
Definition values_nonnegative (es : list Entity) : Prop :=
  Forall (fun e => forall v, e_value e = Some v -> nonnegative_number v = true)
         es.

(* ===================================================================== *)
(** * Properties *)
(* ===================================================================== *)

(** ** Numeric value extraction *)

Lemma isdecimal_not_comma (c : Z) : isdecimal c = true -> (c =? 44) = false.
Proof.
  intros H. destruct (Z.eqb_spec c 44) as [->|]; [discriminate H | reflexivity].
Qed.

Lemma isdecimal_not_sep (c : Z) : isdecimal c = true -> is_sep c = false.
Proof.
  intros H. unfold is_sep.
  destruct (Z.eqb_spec c 46) as [->|]; [discriminate H |].
  destruct (Z.eqb_spec c 44) as [->|]; [discriminate H | reflexivity].
Qed.

Lemma take_digits_fst_digits (s : str) :
  forallb isdecimal (fst (take_digits s)) = true.
Proof.
  induction s as [|c s IH]; simpl; [reflexivity|].
  destruct (isdecimal c) eqn:Hc; [|reflexivity].
  destruct (take_digits s) as [ds r]. simpl in *. now rewrite Hc.
Qed.

Lemma take_digits_split (ds r : str) :
  forallb isdecimal ds = true -> no_leading_digit r = true ->
  take_digits (ds ++ r) = (ds, r).
Proof.
  intros Hds Hr. induction ds as [|c ds IH]; simpl in *.
  - destruct r as [|c r]; [reflexivity|]. simpl in Hr |- *.
    now destruct (isdecimal c).
  - apply andb_true_iff in Hds as [Hc Hds]. rewrite Hc, (IH Hds). reflexivity.
Qed.

Lemma replace_comma_digits (ds : str) :
  forallb isdecimal ds = true -> replace_char ds 44 46 = ds.
Proof.
  induction ds as [|c ds IH]; simpl; [reflexivity|].
  intros H. apply andb_true_iff in H as [Hc Hds].
  now rewrite (isdecimal_not_comma c Hc), (IH Hds).
Qed.

Lemma scan_frac (s acc : str) :
  exists tl, scan s (FracPart acc) = (rev acc ++ fst (take_digits s)) :: tl.
Proof.
  revert acc. induction s as [|c s IH]; intros acc; simpl.
  - exists []. now rewrite app_nil_r.
  - destruct (isdecimal c) eqn:Hc.
    + destruct (IH (c :: acc)) as [tl ->]. exists tl.
      destruct (take_digits s) as [ds r]. simpl. now rewrite <- app_assoc.
    + eexists. now rewrite app_nil_r.
Qed.

Lemma scan_int (s acc : str) :
  exists tl, scan s (IntPart acc) = (rev acc ++ literal_tail s) :: tl.
Proof.
  revert acc. induction s as [|c s IH]; intros acc.
  - exists []. simpl. now rewrite app_nil_r.
  - simpl. unfold literal_tail. simpl. destruct (isdecimal c) eqn:Hc.
    + destruct (IH (c :: acc)) as [tl ->]. exists tl.
      unfold literal_tail. destruct (take_digits s) as [ds r].
      simpl. now rewrite <- app_assoc.
    + simpl. destruct (is_sep c) eqn:Hs.
      * destruct (scan_frac s (c :: acc)) as [tl ->]. exists tl.
        simpl. now rewrite <- app_assoc.
      * eexists. now rewrite app_nil_r.
Qed.

Lemma scan_outside (s : str) :
  scan s Outside =
  match skip_to_digit s with
  | [] => []
  | c :: s' => scan s' (IntPart [c])
  end.
Proof.
  induction s as [|c s IH]; simpl; [reflexivity|].
  now destruct (isdecimal c).
Qed.

Lemma skip_to_digit_head (s : str) (c : Z) (s' : str) :
  skip_to_digit s = c :: s' -> isdecimal c = true.
Proof.
  induction s as [|d s IH]; simpl; [discriminate|].
  destruct (isdecimal d) eqn:Hd; [|exact IH].
  intros [= <- _]. exact Hd.
Qed.

Lemma float_of_str_int (ds : str) (c : Z) :
  isdecimal c = true -> forallb isdecimal ds = true ->
  float_of_str (c :: ds) = Ok (PyFloat.of_decimal (digits_value (c :: ds)) 0).
Proof.
  intros Hc Hds. unfold float_of_str.
  replace (c :: ds) with ((c :: ds) ++ []) at 1 by apply app_nil_r.
  rewrite take_digits_split; [reflexivity| simpl; now rewrite Hc | reflexivity].
Qed.

Lemma float_of_str_frac (ds fp : str) (c : Z) :
  isdecimal c = true -> forallb isdecimal ds = true ->
  forallb isdecimal fp = true ->
  float_of_str ((c :: ds) ++ 46 :: fp) =
  Ok (PyFloat.of_decimal (digits_value ((c :: ds) ++ fp)) (List.length fp)).
Proof.
  intros Hc Hds Hfp. unfold float_of_str.
  rewrite take_digits_split; [| simpl; now rewrite Hc | reflexivity].
  cbn [Z.eqb Pos.eqb].
  replace fp with (fp ++ []) at 1 by apply app_nil_r.
  rewrite take_digits_split; [reflexivity | exact Hfp | reflexivity].
Qed.

(** The extractor never raises: it returns the float of the first literal,
    or [None] when there is none. *)
Lemma _extract_numeric_value_ok (span : str) :
  _extract_numeric_value span = Ok (numeric_value span).
Proof.
  unfold _extract_numeric_value, findall_number, numeric_value, first_literal.
  rewrite scan_outside.
  destruct (skip_to_digit span) as [|c s'] eqn:Hskip; [reflexivity|].
  pose proof (skip_to_digit_head _ _ _ Hskip) as Hc.
  destruct (scan_int s' [c]) as [tl ->]. simpl rev. simpl app.
  unfold literal_tail. simpl take_digits. rewrite Hc.
  pose proof (take_digits_fst_digits s') as Hip.
  destruct (take_digits s') as [ip r]. simpl in Hip.
  assert (Hint : bind (float_of_str (replace_char (c :: ip ++ []) 44 46))
                   (fun x => Ok (Some x))
                 = Ok (Some (PyFloat.of_decimal (digits_value (c :: ip)) 0))).
  { rewrite app_nil_r, (replace_comma_digits (c :: ip)).
    - now rewrite float_of_str_int.
    - simpl. now rewrite Hc. }
  destruct r as [|c2 r']; [exact Hint|].
  destruct (is_sep c2) eqn:Hsep; [|exact Hint].
  pose proof (take_digits_fst_digits r') as Hfp.
  destruct (take_digits r') as [fp r'']. simpl in Hfp. simpl fst.
  assert (Hrep : replace_char (c :: ip ++ c2 :: fp) 44 46 = (c :: ip) ++ 46 :: fp).
  { change (c :: ip ++ c2 :: fp) with ((c :: ip) ++ c2 :: fp).
    unfold replace_char. rewrite map_app. simpl map at 2.
    fold (replace_char (c :: ip) 44 46). fold (replace_char fp 44 46).
    rewrite (replace_comma_digits fp Hfp), (replace_comma_digits (c :: ip)).
    - unfold is_sep in Hsep. apply orb_true_iff in Hsep as [H|H];
        apply Z.eqb_eq in H; subst c2; reflexivity.
    - simpl. now rewrite Hc. }
  rewrite Hrep, float_of_str_frac by assumption. reflexivity.
Qed.

Lemma is_sep_not_decimal (c : Z) : is_sep c = true -> isdecimal c = false.
Proof.
  intros H. destruct (isdecimal c) eqn:Hc; [|reflexivity].
  now rewrite (isdecimal_not_sep c Hc) in H.
Qed.

Lemma skip_to_digit_nil (s : str) :
  skip_to_digit s = [] <-> existsb isdecimal s = false.
Proof.
  induction s as [|c s IH]; simpl; [tauto|].
  destruct (isdecimal c); simpl; [split; discriminate | exact IH].
Qed.

Lemma skip_to_digit_app (pre s : str) :
  existsb isdecimal pre = false -> skip_to_digit (pre ++ s) = skip_to_digit s.
Proof.
  induction pre as [|c pre IH]; simpl; [reflexivity|].
  destruct (isdecimal c); simpl; [discriminate | exact IH].
Qed.

Lemma first_literal_none (span : str) :
  first_literal span = None <-> existsb isdecimal span = false.
Proof.
  rewrite <- skip_to_digit_nil. unfold first_literal.
  destruct (skip_to_digit span) as [|c s'] eqn:Hskip; [simpl; tauto|].
  pose proof (skip_to_digit_head _ _ _ Hskip) as Hc.
  simpl. rewrite Hc. destruct (take_digits s') as [ip r].
  split; [|discriminate].
  destruct r as [|c2 r']; [discriminate|].
  destruct (is_sep c2); [|discriminate].
  destruct (take_digits r'); discriminate.
Qed.

(** The literal of a span that is written [pre ++ ip ++ c :: fp ++ rest]:
    no digit in [pre], digits [ip], a separator [c], digits [fp]. *)
Lemma first_literal_with_separator (pre ip fp rest : str) (c : Z) :
  existsb isdecimal pre = false ->
  ip <> [] -> forallb isdecimal ip = true ->
  is_sep c = true ->
  forallb isdecimal fp = true -> no_leading_digit rest = true ->
  first_literal (pre ++ ip ++ c :: fp ++ rest)
  = Some (digits_value (ip ++ fp), List.length fp).
Proof.
  intros Hpre Hne Hip Hsep Hfp Hrest. unfold first_literal.
  rewrite (skip_to_digit_app _ _ Hpre).
  destruct ip as [|d ip]; [contradiction|].
  simpl in Hip. apply andb_true_iff in Hip as [Hd Hip].
  simpl skip_to_digit. rewrite Hd.
  change (d :: ip ++ c :: fp ++ rest) with ((d :: ip) ++ c :: fp ++ rest).
  rewrite take_digits_split;
    [| simpl; now rewrite Hd
     | simpl; now rewrite (is_sep_not_decimal c Hsep)].
  rewrite Hsep, (take_digits_split fp rest Hfp Hrest). reflexivity.
Qed.

(** The literal of a span [pre ++ ip ++ rest] whose digits [ip] are followed
    neither by a digit nor by a separator. *)
Lemma first_literal_integer (pre ip rest : str) :
  existsb isdecimal pre = false ->
  ip <> [] -> forallb isdecimal ip = true ->
  no_leading_digit rest = true ->
  match rest with c :: _ => is_sep c = false | [] => True end ->
  first_literal (pre ++ ip ++ rest) = Some (digits_value ip, O).
Proof.
  intros Hpre Hne Hip Hrest Hnsep. unfold first_literal.
  rewrite (skip_to_digit_app _ _ Hpre).
  destruct ip as [|d ip]; [contradiction|].
  simpl in Hip. apply andb_true_iff in Hip as [Hd Hip].
  simpl skip_to_digit. rewrite Hd.
  change (d :: ip ++ rest) with ((d :: ip) ++ rest).
  rewrite take_digits_split; [| simpl; now rewrite Hd | exact Hrest].
  destruct rest as [|c rest]; [reflexivity|]. now rewrite Hnsep.
Qed.

(** C8.  [_extract_numeric_value] never raises and returns the float of the
    first numeric literal of the span: the digits from the first digit on
    and, when a point or a comma follows them, the digits after it as the
    fractional part, whichever of the two separators is written; it returns
    [None] exactly when the span holds no digit.  The spans "42 килограмма"
    and "2,5 килограмма" give the binary64 values 42 and 2.5, that is
    42 * 2^47 * 2^-47 and 5 * 2^50 * 2^-51. *)
Theorem numeric_value_extraction :
  (forall span, _extract_numeric_value span = Ok (numeric_value span)) /\
  (forall span,
      _extract_numeric_value span = Ok None <-> existsb isdecimal span = false) /\
  (forall pre ip fp rest c,
      existsb isdecimal pre = false ->
      ip <> [] -> forallb isdecimal ip = true ->
      is_sep c = true ->
      forallb isdecimal fp = true -> no_leading_digit rest = true ->
      _extract_numeric_value (pre ++ ip ++ c :: fp ++ rest)
      = Ok (Some (PyFloat.of_decimal (digits_value (ip ++ fp)) (List.length fp)))) /\
  (forall pre ip rest,
      existsb isdecimal pre = false ->
      ip <> [] -> forallb isdecimal ip = true ->
      no_leading_digit rest = true ->
      match rest with c :: _ => is_sep c = false | [] => True end ->
      _extract_numeric_value (pre ++ ip ++ rest)
      = Ok (Some (PyFloat.of_decimal (digits_value ip) 0))) /\
  _extract_numeric_value (u "42 килограмма")
  = Ok (Some (S754_finite false (42 * 2 ^ 47) (-47))) /\
  _extract_numeric_value (u "2,5 килограмма")
  = Ok (Some (S754_finite false (5 * 2 ^ 50) (-51))) /\
  _extract_numeric_value (u "2.5 килограмма")
  = _extract_numeric_value (u "2,5 килограмма").
Proof.
  split; [exact _extract_numeric_value_ok|].
  split.
  { intros span. rewrite _extract_numeric_value_ok, <- first_literal_none.
    unfold numeric_value. destruct (first_literal span) as [[m k]|].
    - split; discriminate.
    - split; reflexivity. }
  split.
  { intros pre ip fp rest c Hpre Hne Hip Hsep Hfp Hrest.
    rewrite _extract_numeric_value_ok. unfold numeric_value.
    now rewrite (first_literal_with_separator pre ip fp rest c). }
  split.
  { intros pre ip rest Hpre Hne Hip Hrest Hnsep.
    rewrite _extract_numeric_value_ok. unfold numeric_value.
    now rewrite (first_literal_integer pre ip rest). }
  repeat split; vm_compute; reflexivity.
Qed.

(** The theorem at work on "вес 2,5 кг": no digit before "2", the comma as
    separator, "5" after it. *)
Lemma numeric_value_extraction_witness :
  _extract_numeric_value (u "вес 2,5 кг")
  = Ok (Some (PyFloat.of_decimal 25 1)).
Proof.
  apply (proj1 (proj2 (proj2 numeric_value_extraction))
           (u "вес ") (u "2") (u "5") (u " кг") 44);
    solve [reflexivity | discriminate].
Defined.

(** ** Merge and sort *)

Lemma insert_by_start_hd (e a : Entity) (l : list Entity) :
  HdRel le_start a l -> le_start a e -> HdRel le_start a (insert_by_start e l).
Proof.
  intros Hl Hae. destruct l as [|x l]; simpl.
  - now constructor.
  - destruct (e_start e <=? e_start x); constructor;
      [exact Hae | now inversion Hl].
Qed.

Lemma insert_by_start_sorted (e : Entity) (l : list Entity) :
  Sorted le_start l -> Sorted le_start (insert_by_start e l).
Proof.
  induction 1 as [|x l Hs IH Hhd]; simpl.
  - repeat constructor.
  - destruct (Z.leb_spec (e_start e) (e_start x)) as [Hle|Hlt].
    + constructor; [now constructor | now constructor].
    + constructor; [exact IH|].
      apply insert_by_start_hd; [exact Hhd | unfold le_start; lia].
Qed.

Lemma sort_by_start_sorted (l : list Entity) : Sorted le_start (sort_by_start l).
Proof.
  induction l as [|e l IH]; simpl; [constructor|].
  now apply insert_by_start_sorted.
Qed.

Lemma insert_by_start_perm (e : Entity) (l : list Entity) :
  Permutation (e :: l) (insert_by_start e l).
Proof.
  induction l as [|x l IH]; simpl; [reflexivity|].
  destruct (e_start e <=? e_start x); [reflexivity|].
  rewrite perm_swap. now constructor.
Qed.

Lemma sort_by_start_perm (l : list Entity) : Permutation l (sort_by_start l).
Proof.
  induction l as [|e l IH]; simpl; [constructor|].
  rewrite <- insert_by_start_perm. now constructor.
Qed.

Lemma starting_at_insert (s : Z) (e : Entity) (l : list Entity) :
  starting_at s (insert_by_start e l) = starting_at s (e :: l).
Proof.
  unfold starting_at. induction l as [|x l IH]; [reflexivity|].
  simpl insert_by_start.
  destruct (Z.leb_spec (e_start e) (e_start x)) as [Hle|Hlt]; [reflexivity|].
  simpl in *. rewrite IH.
  destruct (Z.eqb_spec (e_start e) s) as [He|He]; [|reflexivity].
  destruct (Z.eqb_spec (e_start x) s) as [Hx|Hx]; [lia | reflexivity].
Qed.

(** The sort keeps the entities of equal start in the order they had. *)
Lemma sort_by_start_stable (s : Z) (l : list Entity) :
  starting_at s (sort_by_start l) = starting_at s l.
Proof.
  induction l as [|e l IH]; [reflexivity|].
  simpl sort_by_start. rewrite starting_at_insert.
  unfold starting_at in *. simpl. now rewrite IH.
Qed.

Lemma starting_at_app (s : Z) (l1 l2 : list Entity) :
  starting_at s (l1 ++ l2) = starting_at s l1 ++ starting_at s l2.
Proof. apply filter_app. Qed.

Lemma sorted_strongly (l : list Entity) :
  Sorted le_start l -> StronglySorted le_start l.
Proof.
  apply Sorted_StronglySorted. intros a b c. unfold le_start. lia.
Qed.

Lemma starting_at_below (s : Z) (a : Entity) (l : list Entity) :
  Forall (le_start a) l -> s < e_start a -> starting_at s l = [].
Proof.
  intros Hall Hlt. unfold starting_at.
  induction Hall as [|x l Hx _ IH]; [reflexivity|]. simpl.
  destruct (Z.eqb_spec (e_start x) s); [unfold le_start in Hx; lia | exact IH].
Qed.

(** Two sorted lists with the same entities at every start, in the same
    order, are the same list. *)
Lemma sorted_ties_unique (l1 l2 : list Entity) :
  Sorted le_start l1 -> Sorted le_start l2 ->
  (forall s, starting_at s l1 = starting_at s l2) -> l1 = l2.
Proof.
  intros H1 H2. apply sorted_strongly in H1, H2.
  revert l2 H2. induction H1 as [|a l1 Hs1 IH Ha]; intros l2 H2 Heq.
  - destruct l2 as [|b l2]; [reflexivity|].
    specialize (Heq (e_start b)). unfold starting_at in Heq. simpl in Heq.
    now rewrite Z.eqb_refl in Heq.
  - destruct H2 as [|b l2 Hs2 Hb].
    + specialize (Heq (e_start a)). unfold starting_at in Heq. simpl in Heq.
      now rewrite Z.eqb_refl in Heq.
    + assert (Hab : e_start a = e_start b).
      { destruct (Z.lt_trichotomy (e_start a) (e_start b)) as [Hlt|[He|Hgt]];
          [|exact He|].
        - specialize (Heq (e_start a)).
          rewrite (starting_at_below (e_start a) b (b :: l2)) in Heq;
            [| constructor; [unfold le_start; lia | exact Hb] | exact Hlt].
          unfold starting_at in Heq. simpl in Heq.
          now rewrite Z.eqb_refl in Heq.
        - specialize (Heq (e_start b)).
          rewrite (starting_at_below (e_start b) a (a :: l1)) in Heq;
            [| constructor; [unfold le_start; lia | exact Ha] | lia].
          unfold starting_at in Heq. simpl in Heq.
          now rewrite Z.eqb_refl in Heq. }
      pose proof (Heq (e_start a)) as Hhd.
      unfold starting_at in Hhd. simpl in Hhd.
      rewrite <- Hab, Z.eqb_refl in Hhd. injection Hhd as <- Htl.
      f_equal. apply IH; [exact Hs2|].
      intros s. specialize (Heq s). unfold starting_at in *. simpl in Heq.
      destruct (Z.eqb_spec (e_start a) s) as [Hs|Hs]; [|exact Heq].
      now injection Heq.
Qed.

(** Whatever stable sorting algorithm [list.sort] runs, its result is
    [sort_by_start]. *)
Lemma stable_sort_unique (l l' : list Entity) :
  Sorted le_start l' ->
  (forall s, starting_at s l' = starting_at s l) ->
  l' = sort_by_start l.
Proof.
  intros Hs Hst. apply sorted_ties_unique;
    [exact Hs | apply sort_by_start_sorted |].
  intros s. now rewrite Hst, sort_by_start_stable.
Qed.

(** ** The extractors return, and what they return *)

Lemma mapM_pure {A B : Type} (f : A -> result B) (g : A -> B) (l : list A) :
  (forall a, f a = Ok (g a)) -> mapM f l = Ok (map g l).
Proof.
  intros Hf. induction l as [|a l IH]; simpl; [reflexivity|].
  now rewrite Hf, IH.
Qed.

Section ExtractorFacts.

Context {C : Collaborators}.

Lemma regex_entities_ok (text : str) (matches : list (Z * Z))
      (k : EntityKind) (with_value : bool) :
  regex_entities text matches k with_value
  = Ok (span_entities text matches k with_value).
Proof.
  unfold regex_entities, span_entities. apply mapM_pure.
  intros [start stop]. destruct with_value; simpl; [|reflexivity].
  now rewrite _extract_numeric_value_ok.
Qed.

Lemma _extract_with_parser_ok (text : str) (parser : str -> list (Z * Z))
      (k : EntityKind) :
  _extract_with_parser text parser k
  = Ok (span_entities text (parser text) k (carries_number k)).
Proof.
  unfold _extract_with_parser, span_entities. apply mapM_pure.
  intros [start stop]. destruct (carries_number k); simpl; [|reflexivity].
  now rewrite _extract_numeric_value_ok.
Qed.

Lemma _extract_custom_entities_ok (text : str) :
  _extract_custom_entities text = Ok (custom_entities_of text).
Proof.
  unfold _extract_custom_entities.
  rewrite !_extract_with_parser_ok. reflexivity.
Qed.

Lemma _extract_regex_entities_ok (text : str) :
  _extract_regex_entities text = Ok (regex_entities_of text).
Proof.
  unfold _extract_regex_entities.
  rewrite !regex_entities_ok. reflexivity.
Qed.

Lemma collected_entities_ok (text : str) :
  collected_entities text
  = Ok (_extract_natasha_entities text ++ custom_entities_of text
        ++ regex_entities_of text).
Proof.
  unfold collected_entities.
  now rewrite _extract_custom_entities_ok, _extract_regex_entities_ok.
Qed.

Lemma extract_entities_ok (text : str) :
  extract_entities text
  = Ok (sort_by_start (_extract_natasha_entities text
                       ++ custom_entities_of text ++ regex_entities_of text)).
Proof.
  unfold extract_entities. now rewrite collected_entities_ok.
Qed.

Lemma extract_animal_info_ok (text : str) :
  extract_animal_info text
  = Ok (synthesize text
          (sort_by_start (_extract_natasha_entities text
                          ++ custom_entities_of text ++ regex_entities_of text))).
Proof.
  unfold extract_animal_info. now rewrite extract_entities_ok.
Qed.

End ExtractorFacts.

Lemma sorted_adjacent (l : list Entity) :
  Sorted le_start l ->
  forall i a b,
    nth_error l i = Some a -> nth_error l (S i) = Some b ->
    e_start a <= e_start b.
Proof.
  induction 1 as [|x l Hs IH Hhd]; intros i a b Ha Hb.
  - now destruct i.
  - destruct i as [|i]; simpl in Ha, Hb.
    + injection Ha as <-. destruct l as [|y l]; [discriminate|].
      simpl in Hb. injection Hb as <-. now inversion Hhd.
    + exact (IH i a b Ha Hb).
Qed.

(** C5.  [extract_entities] returns, for every text and whatever the
    tagger, the parsers and the patterns report, a list that holds the
    entities of the three extractors, is sorted by ascending start (every
    adjacent pair [i], [i+1] has [start i <= start (i+1)]), and in which
    the entities of any one start offset come in the order the extractors
    ran: those of the tagger, then those of the lexicon parsers, then
    those of the regular expressions. *)
Theorem merge_sort_order (C : Collaborators) (text : str) :
  exists custom regex es,
    _extract_custom_entities text = Ok custom /\
    _extract_regex_entities text = Ok regex /\
    extract_entities text = Ok es /\
    Permutation (_extract_natasha_entities text ++ custom ++ regex) es /\
    Sorted le_start es /\
    (forall i a b,
        nth_error es i = Some a -> nth_error es (S i) = Some b ->
        e_start a <= e_start b) /\
    (forall s,
        starting_at s es
        = starting_at s (_extract_natasha_entities text)
          ++ starting_at s custom ++ starting_at s regex).
Proof.
  exists (custom_entities_of text), (regex_entities_of text).
  eexists. split; [apply _extract_custom_entities_ok|].
  split; [apply _extract_regex_entities_ok|].
  split; [apply extract_entities_ok|].
  split; [apply sort_by_start_perm|].
  split; [apply sort_by_start_sorted|].
  split; [apply sorted_adjacent, sort_by_start_sorted|].
  intros s. now rewrite sort_by_start_stable, !starting_at_app.
Qed.

(** ** The synthesis pass *)

Section FirstMatch.

(** A slot of the draft that the loop fills from the entities of kind [k]
    when it is still [None]. *)
Variable A : Type.
Variable get : Draft -> option A.
Variable k : EntityKind.
Variable proj : Entity -> option A.
Variable text : str.

Hypothesis step_slot :
  forall d e,
    get (synth_step text d e)
    = if is_kind k e
      then match get d with Some v => Some v | None => proj e end
      else get d.

Lemma fold_slot_set (es : list Entity) (d : Draft) (v : A) :
  get d = Some v -> get (fold_left (synth_step text) es d) = Some v.
Proof.
  revert d. induction es as [|e es IH]; intros d Hd; simpl; [exact Hd|].
  apply IH. rewrite step_slot, Hd. now destruct (is_kind k e).
Qed.

Lemma fold_slot (es : list Entity) (d : Draft) :
  get d = None ->
  get (fold_left (synth_step text) es d) = first_present k proj es.
Proof.
  revert d. induction es as [|e es IH]; intros d Hd; simpl; [exact Hd|].
  pose proof (step_slot d e) as Hstep. rewrite Hd in Hstep.
  destruct (is_kind k e).
  - destruct (proj e) as [v|] eqn:Hp.
    + now apply fold_slot_set.
    + now apply IH.
  - apply IH. now rewrite Hstep.
Qed.

End FirstMatch.

Ltac step_cases :=
  intros d e; unfold synth_step, is_kind, text_of;
  destruct (e_type e); simpl;
  repeat match goal with
         | |- context [match ?x with Some _ => _ | None => _ end] =>
             destruct x eqn:?; simpl
         | |- context [if ?b then _ else _] => destruct b eqn:?; simpl
         end;
  congruence.

Lemma step_name (text : str) : forall d e,
  name (synth_step text d e)
  = if is_kind Person e
    then match name d with Some v => Some v | None => text_of e end
    else name d.
Proof. step_cases. Qed.

Lemma step_species (text : str) : forall d e,
  species (synth_step text d e)
  = if is_kind AnimalSpecies e
    then match species d with Some v => Some v | None => text_of e end
    else species d.
Proof. step_cases. Qed.

Lemma step_behavior (text : str) : forall d e,
  behavior (synth_step text d e)
  = if is_kind Behavior e
    then match behavior d with Some v => Some v | None => text_of e end
    else behavior d.
Proof. step_cases. Qed.

Lemma step_health_status (text : str) : forall d e,
  health_status (synth_step text d e)
  = if is_kind HealthStatus e
    then match health_status d with Some v => Some v | None => text_of e end
    else health_status d.
Proof. step_cases. Qed.

Lemma step_food_type (text : str) : forall d e,
  fd_food_type (feeding (synth_step text d e))
  = if is_kind Food e
    then match fd_food_type (feeding d) with
         | Some v => Some v
         | None => text_of e
         end
    else fd_food_type (feeding d).
Proof. step_cases. Qed.

Lemma step_weight (text : str) : forall d e,
  m_weight (measurements (synth_step text d e))
  = if is_kind Weight e
    then match m_weight (measurements d) with
         | Some v => Some v
         | None => e_value e
         end
    else m_weight (measurements d).
Proof. step_cases. Qed.

Lemma step_length (text : str) : forall d e,
  m_length (measurements (synth_step text d e))
  = if is_kind Length e
    then match m_length (measurements d) with
         | Some v => Some v
         | None => e_value e
         end
    else m_length (measurements d).
Proof. step_cases. Qed.

Lemma step_age (text : str) : forall d e,
  m_age (measurements (synth_step text d e))
  = if is_kind Age e
    then match m_age (measurements d) with
         | Some v => Some v
         | None => e_value e
         end
    else m_age (measurements d).
Proof. step_cases. Qed.

Lemma step_quantity (text : str) : forall d e,
  fd_quantity (feeding (synth_step text d e)) = fd_quantity (feeding d).
Proof. step_cases. Qed.

Lemma step_temperature_slots (text : str) : forall d e,
  temperature_slots (synth_step text d e)
  = if is_kind Temperature e
    then route_temperature text (temperature_slots d) e
    else temperature_slots d.
Proof.
  intros d e. unfold synth_step, is_kind, route_temperature, near_body_marker.
  destruct (e_type e); simpl;
    repeat match goal with
           | |- context [match ?x with Some _ => _ | None => _ end] =>
               destruct x eqn:?; simpl
           | |- context [if ?b then _ else _] => destruct b eqn:?; simpl
           end;
    reflexivity.
Qed.

(** The join sets the quantity from the first weight entity near the food
    entity, and nothing else. *)
Lemma quantity_scan_find (food_entity : Entity) (es : list Entity) (d : Draft) :
  quantity_scan food_entity es d
  = match List.find (near_weight food_entity) es with
    | Some w => set_quantity d (e_value w)
    | None => d
    end.
Proof.
  induction es as [|e es IH]; simpl; [reflexivity|].
  now destruct (near_weight food_entity e).
Qed.

Lemma near_weight_threshold (food_entity w : Entity) :
  near_weight food_entity w = weight_within_threshold food_entity w.
Proof.
  unfold near_weight, weight_within_threshold.
  destruct (is_kind Weight w); simpl; [|reflexivity].
  destruct (Z.ltb_spec (Z.abs (e_start w - e_start food_entity)) 20);
    destruct (Z.ltb_spec (e_start food_entity - 20) (e_start w));
    destruct (Z.ltb_spec (e_start w) (e_start food_entity + 20));
    simpl; try reflexivity; lia.
Qed.

(** The join leaves the slots other than the quantity as the loop set
    them. *)
Lemma synthesize_slot {A : Type} (get : Draft -> option A) (text : str)
      (es : list Entity) :
  (forall d v, get (set_quantity d v) = get d) ->
  get (synthesize text es)
  = get (fold_left (synth_step text) es (initial_draft es)).
Proof.
  intros Hq. unfold synthesize.
  destruct (first_food es) as [food_entity|]; [|reflexivity].
  rewrite quantity_scan_find.
  destruct (List.find (near_weight food_entity) es); [apply Hq | reflexivity].
Qed.

Lemma first_present_text (k : EntityKind) (es : list Entity) :
  first_present k text_of es = option_map e_text (first_of k es).
Proof.
  unfold first_of. induction es as [|e es IH]; simpl; [reflexivity|].
  now destruct (is_kind k e).
Qed.

Lemma first_present_takes (k : EntityKind) (es : list Entity) :
  takes_first_value k es (first_present k e_value es).
Proof.
  unfold takes_first_value, first_of. split; [reflexivity|].
  induction es as [|e es [IH1 IH2]]; simpl; [split; [discriminate | reflexivity]|].
  destruct (is_kind k e); [|split; assumption].
  split; [|discriminate].
  intros e' [= <-] Hv. now destruct (e_value e).
Qed.

Section SynthesizedSlots.

Variable text : str.
Variable es : list Entity.

Let d := synthesize text es.

Lemma synthesize_name : name d = option_map e_text (first_of Person es).
Proof.
  unfold d. rewrite (synthesize_slot name) by reflexivity.
  rewrite (fold_slot _ name Person text_of text (step_name text)) by reflexivity.
  apply first_present_text.
Qed.

Lemma synthesize_species :
  species d = option_map e_text (first_of AnimalSpecies es).
Proof.
  unfold d. rewrite (synthesize_slot species) by reflexivity.
  rewrite (fold_slot _ species AnimalSpecies text_of text (step_species text))
    by reflexivity.
  apply first_present_text.
Qed.

Lemma synthesize_behavior :
  behavior d = option_map e_text (first_of Behavior es).
Proof.
  unfold d. rewrite (synthesize_slot behavior) by reflexivity.
  rewrite (fold_slot _ behavior Behavior text_of text (step_behavior text))
    by reflexivity.
  apply first_present_text.
Qed.

Lemma synthesize_health_status :
  health_status d = option_map e_text (first_of HealthStatus es).
Proof.
  unfold d. rewrite (synthesize_slot health_status) by reflexivity.
  rewrite (fold_slot _ health_status HealthStatus text_of text
             (step_health_status text)) by reflexivity.
  apply first_present_text.
Qed.

Lemma synthesize_food_type :
  fd_food_type (feeding d) = option_map e_text (first_of Food es).
Proof.
  unfold d.
  rewrite (synthesize_slot (fun x => fd_food_type (feeding x))) by reflexivity.
  rewrite (fold_slot _ (fun x => fd_food_type (feeding x)) Food text_of text
             (step_food_type text)) by reflexivity.
  apply first_present_text.
Qed.

Lemma synthesize_weight :
  m_weight (measurements d) = first_present Weight e_value es.
Proof.
  unfold d.
  rewrite (synthesize_slot (fun x => m_weight (measurements x))) by reflexivity.
  now rewrite (fold_slot _ (fun x => m_weight (measurements x)) Weight e_value
                 text (step_weight text)).
Qed.

Lemma synthesize_length :
  m_length (measurements d) = first_present Length e_value es.
Proof.
  unfold d.
  rewrite (synthesize_slot (fun x => m_length (measurements x))) by reflexivity.
  now rewrite (fold_slot _ (fun x => m_length (measurements x)) Length e_value
                 text (step_length text)).
Qed.

Lemma synthesize_age :
  m_age (measurements d) = first_present Age e_value es.
Proof.
  unfold d.
  rewrite (synthesize_slot (fun x => m_age (measurements x))) by reflexivity.
  now rewrite (fold_slot _ (fun x => m_age (measurements x)) Age e_value
                 text (step_age text)).
Qed.

End SynthesizedSlots.

(** C6.  After the synthesis of any entity sequence, [name], [species],
    [behavior], [health_status] and [feeding.food_type] hold the text of
    the first person, species, behavior, health-status and food entity of
    the sequence, and [measurements.weight], [.length] and [.age] take the
    value of the first weight, length and age entity (the first value
    present among the entities of the kind, which is the value of the first
    of them whenever that one carries a value, as the entities the
    extractors build from a span with a digit do); a slot whose kind has no
    entity stays [None].  In particular two weight entities that start at 5
    and at 20, given in either order to the sort, leave in
    [measurements.weight] the value of the one that starts at 5. *)
Theorem first_match_wins (text : str) (es : list Entity) :
  let d := synthesize text es in
  name d = option_map e_text (first_of Person es) /\
  species d = option_map e_text (first_of AnimalSpecies es) /\
  behavior d = option_map e_text (first_of Behavior es) /\
  health_status d = option_map e_text (first_of HealthStatus es) /\
  fd_food_type (feeding d) = option_map e_text (first_of Food es) /\
  takes_first_value Weight es (m_weight (measurements d)) /\
  takes_first_value Length es (m_length (measurements d)) /\
  takes_first_value Age es (m_age (measurements d)) /\
  (forall e5 e20 v,
      e_type e5 = Weight -> e_start e5 = 5 -> e_value e5 = Some v ->
      e_type e20 = Weight -> e_start e20 = 20 ->
      m_weight (measurements (synthesize text (sort_by_start [e5; e20])))
      = Some v /\
      m_weight (measurements (synthesize text (sort_by_start [e20; e5])))
      = Some v).
Proof.
  cbv zeta.
  split; [apply synthesize_name|].
  split; [apply synthesize_species|].
  split; [apply synthesize_behavior|].
  split; [apply synthesize_health_status|].
  split; [apply synthesize_food_type|].
  split; [rewrite synthesize_weight; apply first_present_takes|].
  split; [rewrite synthesize_length; apply first_present_takes|].
  split; [rewrite synthesize_age; apply first_present_takes|].
  intros e5 e20 v Hk5 Hs5 Hv5 Hk20 Hs20.
  rewrite !synthesize_weight. unfold sort_by_start. simpl.
  rewrite Hs5, Hs20. simpl. unfold is_kind. rewrite Hk5, Hv5. simpl.
  split; reflexivity.
Qed.

(** The theorem at work: weights of 3 at 5 and of 4 at 20, the later one
    given first. *)
Lemma first_match_wins_witness :
  m_weight
    (measurements
       (synthesize (u "")
          (sort_by_start
             [mkEntity (u "4 кг") Weight 20 24 (Some (PyFloat.of_Z 4)) None;
              mkEntity (u "3 кг") Weight 5 9 (Some (PyFloat.of_Z 3)) None])))
  = Some (PyFloat.of_Z 3).
Proof.
  destruct (first_match_wins (u "") []) as (_ & _ & _ & _ & _ & _ & _ & _ & H).
  apply (H (mkEntity (u "3 кг") Weight 5 9 (Some (PyFloat.of_Z 3)) None)
           (mkEntity (u "4 кг") Weight 20 24 (Some (PyFloat.of_Z 4)) None)
           (PyFloat.of_Z 3));
    reflexivity.
Defined.

(** ** The feeding join *)

Lemma find_pointwise {A : Type} (f g : A -> bool) (l : list A) :
  (forall a, f a = g a) -> List.find f l = List.find g l.
Proof.
  intros Hfg. induction l as [|a l IH]; simpl; [reflexivity|].
  now rewrite Hfg, IH.
Qed.

Lemma fold_quantity (text : str) (es : list Entity) (d : Draft) :
  fd_quantity (feeding (fold_left (synth_step text) es d))
  = fd_quantity (feeding d).
Proof.
  revert d. induction es as [|e es IH]; intros d; simpl; [reflexivity|].
  now rewrite IH, step_quantity.
Qed.

(** C4.  After the synthesis of any entity sequence, [feeding.quantity] is
    the value of the first weight entity of the sequence whose start is
    less than 20 positions away from the start of the first food entity,
    before it or after it; it stays [None] when no weight entity is that
    near, and when there is no food entity.  With a food entity at 80 and
    weight entities at 85 and 150, it is the value of the one at 85.  The
    threshold is strict, as the code writes it ([abs(...) < 20]): a weight
    entity exactly 20 positions from the food entity is not joined. *)
Theorem feeding_quantity_join (text : str) (es : list Entity) :
  fd_quantity (feeding (synthesize text es))
  = match first_of Food es with
    | Some food_entity =>
        match List.find (weight_within_threshold food_entity) es with
        | Some w => e_value w
        | None => None
        end
    | None => None
    end
  /\
  (forall food_entity w85 w150,
      e_type food_entity = Food -> e_start food_entity = 80 ->
      e_type w85 = Weight -> e_start w85 = 85 ->
      e_type w150 = Weight -> e_start w150 = 150 ->
      fd_quantity (feeding (synthesize text [food_entity; w85; w150]))
      = e_value w85)
  /\
  (forall food_entity w,
      e_type food_entity = Food -> e_type w = Weight ->
      Z.abs (e_start w - e_start food_entity) = 20 ->
      fd_quantity (feeding (synthesize text [food_entity; w])) = None /\
      fd_quantity (feeding (synthesize text [w; food_entity])) = None).
Proof.
  assert (Hgen : forall l,
             fd_quantity (feeding (synthesize text l))
             = match first_of Food l with
               | Some food_entity =>
                   match List.find (weight_within_threshold food_entity) l with
                   | Some w => e_value w
                   | None => None
                   end
               | None => None
               end).
  { intros l. unfold synthesize, first_of, first_food.
    destruct (List.find (is_kind Food) l) as [food_entity|].
    - rewrite quantity_scan_find.
      rewrite (find_pointwise _ _ l (near_weight_threshold food_entity)).
      destruct (List.find (weight_within_threshold food_entity) l).
      + reflexivity.
      + now rewrite fold_quantity.
    - now rewrite fold_quantity. }
  split; [apply Hgen|].
  split.
  - intros food_entity w85 w150 Hkf Hsf Hk85 Hs85 Hk150 Hs150.
    rewrite Hgen. unfold first_of, weight_within_threshold, is_kind. simpl.
    rewrite Hkf. simpl. rewrite Hk85, Hsf, Hs85. reflexivity.
  - intros food_entity w Hkf Hkw Hdist.
    rewrite !Hgen. unfold first_of, weight_within_threshold, is_kind. simpl.
    rewrite Hkf, Hkw. simpl.
    assert (Hfar : (e_start food_entity - 20 <? e_start w)
                   && (e_start w <? e_start food_entity + 20) = false).
    { destruct (Z.ltb_spec (e_start food_entity - 20) (e_start w));
        destruct (Z.ltb_spec (e_start w) (e_start food_entity + 20));
        simpl; try reflexivity; lia. }
    rewrite Hfar. split; reflexivity.
Qed.

(** The theorem at work: food at 80, weights at 85 and 150. *)
Lemma feeding_quantity_join_witness :
  fd_quantity
    (feeding
       (synthesize (u "")
          [mkEntity (u "мясо") Food 80 84 None None;
           mkEntity (u "2 кг") Weight 85 89 (Some (PyFloat.of_Z 2)) None;
           mkEntity (u "7 кг") Weight 150 154 (Some (PyFloat.of_Z 7)) None]))
  = Some (PyFloat.of_Z 2).
Proof.
  apply (proj1 (proj2 (feeding_quantity_join (u "") []))
           (mkEntity (u "мясо") Food 80 84 None None)
           (mkEntity (u "2 кг") Weight 85 89 (Some (PyFloat.of_Z 2)) None)
           (mkEntity (u "7 кг") Weight 150 154 (Some (PyFloat.of_Z 7)) None));
    reflexivity.
Defined.

(** ** Temperature routing *)

Lemma fold_temperature_slots (text : str) (es : list Entity) (d : Draft) :
  temperature_slots (fold_left (synth_step text) es d)
  = fold_left (route_temperature text) (filter (is_kind Temperature) es)
              (temperature_slots d).
Proof.
  revert d. induction es as [|e es IH]; intros d; simpl; [reflexivity|].
  rewrite IH, step_temperature_slots.
  now destruct (is_kind Temperature e).
Qed.

(** The temperature slots after the synthesis: each temperature entity, in
    the order of the sequence, writes its value into the slot it is routed
    to. *)
Lemma synthesize_temperature_slots (text : str) (es : list Entity) :
  temperature_slots (synthesize text es)
  = fold_left (route_temperature text) (filter (is_kind Temperature) es)
              (None, None).
Proof.
  transitivity
    (temperature_slots (fold_left (synth_step text) es (initial_draft es))).
  - unfold synthesize.
    destruct (first_food es) as [food_entity|]; [|reflexivity].
    rewrite quantity_scan_find.
    now destruct (List.find (near_weight food_entity) es).
  - apply fold_temperature_slots.
Qed.

Lemma insert_by_start_filter (P : Entity -> bool) (e : Entity) (l : list Entity) :
  StronglySorted le_start l ->
  filter P (insert_by_start e l)
  = if P e then insert_by_start e (filter P l) else filter P l.
Proof.
  induction 1 as [|x l Hs IH Hall].
  - simpl. now destruct (P e).
  - simpl insert_by_start.
    destruct (Z.leb_spec (e_start e) (e_start x)) as [Hle|Hlt].
    + simpl. destruct (P e); [|reflexivity].
      assert (Hfront : forall l', Forall (le_start x) l' ->
                 insert_by_start e l' = e :: l').
      { intros l' Hl'. destruct Hl' as [|y l' Hy _]; [reflexivity|]. simpl.
        destruct (Z.leb_spec (e_start e) (e_start y)); [reflexivity|].
        unfold le_start in Hy. lia. }
      rewrite Hfront; [reflexivity|].
      destruct (P x).
      * constructor; [unfold le_start; lia|].
        apply Forall_forall. intros y Hy. apply filter_In in Hy as [Hy _].
        rewrite Forall_forall in Hall. now apply Hall.
      * apply Forall_forall. intros y Hy. apply filter_In in Hy as [Hy _].
        rewrite Forall_forall in Hall. now apply Hall.
    + simpl. rewrite IH. destruct (P x), (P e); simpl; try reflexivity.
      destruct (Z.leb_spec (e_start e) (e_start x)); [lia | reflexivity].
Qed.

(** The entities of the sorted list that satisfy [P] are the sorted
    entities that satisfy [P]. *)
Lemma sort_by_start_filter (P : Entity -> bool) (l : list Entity) :
  filter P (sort_by_start l) = sort_by_start (filter P l).
Proof.
  induction l as [|e l IH]; [reflexivity|].
  simpl sort_by_start.
  rewrite insert_by_start_filter
    by apply sorted_strongly, sort_by_start_sorted.
  simpl. rewrite IH. now destruct (P e).
Qed.

Lemma filter_kind_span_entities (k k' : EntityKind) (text : str)
      (spans : list (Z * Z)) (b : bool) :
  filter (is_kind k) (span_entities text spans k' b)
  = if kind_eqb k' k then span_entities text spans k' b else [].
Proof.
  unfold span_entities, is_kind.
  induction spans as [|[start stop] spans IH]; simpl.
  - now destruct (kind_eqb k' k).
  - rewrite IH. now destruct (kind_eqb k' k).
Qed.

Lemma filter_temperature_natasha {C : Collaborators} (text : str) :
  filter (is_kind Temperature) (_extract_natasha_entities text) = [].
Proof.
  unfold _extract_natasha_entities.
  induction (ner_spans text) as [|sp l IH]; simpl; [reflexivity|].
  unfold is_kind at 1. simpl. now destruct (span_type sp).
Qed.

(** The temperature entities of a text are those of the temperature
    parser. *)
Lemma temperature_entities {C : Collaborators} (text : str) :
  filter (is_kind Temperature)
         (sort_by_start (_extract_natasha_entities text
                         ++ custom_entities_of text ++ regex_entities_of text))
  = sort_by_start (span_entities text (temp_parser text) Temperature true).
Proof.
  rewrite sort_by_start_filter. f_equal.
  unfold custom_entities_of, regex_entities_of.
  rewrite !filter_app, filter_temperature_natasha,
    !filter_kind_span_entities.
  simpl. now rewrite !app_nil_r.
Qed.

(** The temperature slots of the draft of a text. *)
Lemma extract_animal_info_temperature {C : Collaborators} (text : str) :
  exists d,
    extract_animal_info text = Ok d /\
    temperature_slots d
    = fold_left (route_temperature text)
        (sort_by_start (span_entities text (temp_parser text) Temperature true))
        (None, None).
Proof.
  eexists. split; [apply extract_animal_info_ok|].
  now rewrite synthesize_temperature_slots, temperature_entities.
Qed.

(** Evaluate the right-hand side of an equation in the context. *)
Ltac eval_rhs_in H :=
  match type of H with
  | _ = ?r => let r' := eval vm_compute in r in change r with r' in H
  end.

Lemma temperature_window_positions (text : str) (e : Entity) :
  0 <= e_start e -> e_start e <= e_end e ->
  temperature_window text e
  = let lo := Z.max 0 (e_start e - 10) in
    let hi := Z.min (len text) (e_end e + 10) in
    firstn (Z.to_nat (hi - lo)) (skipn (Z.to_nat lo) text).
Proof.
  intros Hs He. cbv zeta. unfold temperature_window, slice, slice_bound.
  destruct (Z.ltb_spec (Z.max 0 (e_start e - 10)) 0) as [Hneg|_]; [lia|].
  destruct (Z.ltb_spec (e_end e + 10) 0) as [Hneg|_]; [lia|].
  destruct (Z.le_gt_cases (Z.max 0 (e_start e - 10)) (len text)) as [Hin|Hout].
  - rewrite (Z.min_l _ _ Hin), (Z.min_comm (e_end e + 10)). reflexivity.
  - rewrite (Z.min_r (Z.max 0 (e_start e - 10)) (len text)) by lia.
    rewrite !skipn_all2; [now rewrite !firstn_nil | |];
      unfold len in *; lia.
Qed.

(** C7.  A temperature entity is routed by the window of the text that
    runs from 10 characters before its start to 10 characters after its
    end, cut at the bounds of the text: when the window holds the marker
    "тела" the value goes to [measurements.temperature] and
    [environment.temperature] keeps what it held, otherwise the value goes
    to [environment.temperature] and [measurements.temperature] keeps what
    it held.  When the temperature parser reports "35 градусов" in
    "Температура тела 35 градусов", the draft has
    [measurements.temperature] = 35.0 and no [environment.temperature];
    when it reports "22 градуса" in "Температура воздуха 22 градуса", the
    draft has [environment.temperature] = 22.0 and no
    [measurements.temperature]. *)
Theorem temperature_routing :
  (forall text e,
      0 <= e_start e -> e_start e <= e_end e ->
      temperature_window text e
      = let lo := Z.max 0 (e_start e - 10) in
        let hi := Z.min (len text) (e_end e + 10) in
        firstn (Z.to_nat (hi - lo)) (skipn (Z.to_nat lo) text)) /\
  (forall text d e,
      e_type e = Temperature ->
      let d' := synth_step text d e in
      if contains body_marker (temperature_window text e)
      then m_temperature (measurements d') = e_value e /\
           env_temperature (environment d') = env_temperature (environment d)
      else env_temperature (environment d') = e_value e /\
           m_temperature (measurements d') = m_temperature (measurements d)) /\
  (forall C : Collaborators,
      temp_parser (u "Температура тела 35 градусов") = [(17, 28)] ->
      exists d,
        extract_animal_info (u "Температура тела 35 градусов") = Ok d /\
        m_temperature (measurements d)
        = Some (S754_finite false (35 * 2 ^ 47) (-47)) /\
        env_temperature (environment d) = None) /\
  (forall C : Collaborators,
      temp_parser (u "Температура воздуха 22 градуса") = [(20, 30)] ->
      exists d,
        extract_animal_info (u "Температура воздуха 22 градуса") = Ok d /\
        env_temperature (environment d)
        = Some (S754_finite false (22 * 2 ^ 48) (-48)) /\
        m_temperature (measurements d) = None).
Proof.
  split; [exact temperature_window_positions|].
  split.
  { intros text d e Hk. cbv zeta. unfold synth_step. rewrite Hk.
    destruct (contains body_marker (temperature_window text e));
      split; reflexivity. }
  split.
  - intros C Hspans.
    destruct (extract_animal_info_temperature (u "Температура тела 35 градусов"))
      as [d [Hd Hslots]].
    exists d. split; [exact Hd|].
    rewrite Hspans in Hslots. eval_rhs_in Hslots.
    injection Hslots as -> ->. split; reflexivity.
  - intros C Hspans.
    destruct (extract_animal_info_temperature (u "Температура воздуха 22 градуса"))
      as [d [Hd Hslots]].
    exists d. split; [exact Hd|].
    rewrite Hspans in Hslots. eval_rhs_in Hslots.
    injection Hslots as -> ->. split; reflexivity.
Qed.

(** The theorem at work on collaborators that find the temperature alone. *)
Lemma temperature_routing_witness :
  exists d,
    @extract_animal_info (temperature_only [(17, 28)])
      (u "Температура тела 35 градусов") = Ok d /\
    m_temperature (measurements d)
    = Some (S754_finite false (35 * 2 ^ 47) (-47)) /\
    env_temperature (environment d) = None.
Proof.
  apply (proj1 (proj2 (proj2 temperature_routing))
           (temperature_only [(17, 28)])).
  reflexivity.
Defined.

(** ** The temperature slots are overwritten *)

Lemma route_temperature_env_kept (text : str) (l : list Entity)
      (slots : option PyFloat.float * option PyFloat.float) :
  forallb (near_body_marker text) l = true ->
  snd (fold_left (route_temperature text) l slots) = snd slots.
Proof.
  revert slots. induction l as [|e l IH]; intros slots Hl; [reflexivity|].
  simpl in Hl. apply andb_true_iff in Hl as [He Hl]. simpl.
  rewrite (IH _ Hl). unfold route_temperature. now rewrite He.
Qed.

Lemma route_temperature_body_kept (text : str) (l : list Entity)
      (slots : option PyFloat.float * option PyFloat.float) :
  forallb (fun e => negb (near_body_marker text e)) l = true ->
  fst (fold_left (route_temperature text) l slots) = fst slots.
Proof.
  revert slots. induction l as [|e l IH]; intros slots Hl; [reflexivity|].
  simpl in Hl. apply andb_true_iff in Hl as [He Hl]. simpl.
  rewrite (IH _ Hl). unfold route_temperature.
  now destruct (near_body_marker text e).
Qed.

(** What the loop leaves in a temperature slot is the value of the last
    temperature entity routed to it: an entity routed to the slot writes
    over what an earlier one wrote. *)
Lemma temperature_last_wins (text : str) (es before after : list Entity)
      (e : Entity) :
  filter (is_kind Temperature) es = before ++ e :: after ->
  (near_body_marker text e = false ->
   forallb (near_body_marker text) after = true ->
   env_temperature (environment (synthesize text es)) = e_value e) /\
  (near_body_marker text e = true ->
   forallb (fun x => negb (near_body_marker text x)) after = true ->
   m_temperature (measurements (synthesize text es)) = e_value e).
Proof.
  intros Hes.
  pose proof (synthesize_temperature_slots text es) as Hslots.
  rewrite Hes, fold_left_app in Hslots. simpl in Hslots.
  unfold temperature_slots in Hslots.
  split; intros He Hafter.
  - apply (f_equal snd) in Hslots. simpl in Hslots. rewrite Hslots.
    rewrite route_temperature_env_kept by exact Hafter.
    unfold route_temperature. now rewrite He.
  - apply (f_equal fst) in Hslots. simpl in Hslots. rewrite Hslots.
    rewrite route_temperature_body_kept by exact Hafter.
    unfold route_temperature. now rewrite He.
Qed.

Lemma fold_entities (text : str) (es : list Entity) (d : Draft) :
  entities (fold_left (synth_step text) es d) = entities d.
Proof.
  revert d. induction es as [|e es IH]; intros d; simpl; [reflexivity|].
  rewrite IH. unfold synth_step.
  destruct (e_type e); simpl;
    repeat match goal with
           | |- context [match ?x with Some _ => _ | None => _ end] =>
               destruct x; simpl
           | |- context [if ?b then _ else _] => destruct b; simpl
           end;
    reflexivity.
Qed.

(** Every entity is kept in the draft. *)
Lemma synthesize_entities (text : str) (es : list Entity) :
  entities (synthesize text es) = es.
Proof.
  unfold synthesize. destruct (first_food es) as [food_entity|].
  - rewrite quantity_scan_find.
    destruct (List.find (near_weight food_entity) es); simpl;
      now rewrite fold_entities.
  - now rewrite fold_entities.
Qed.

(** C1, on the text "Температура воздуха 22 градуса, позже 25 градусов"
    in which the temperature parser reports "22 градуса" and
    "25 градусов".  Both entities are routed to [environment.temperature]
    (no marker near either); the first in document order carries 22.0, the
    second 25.0, and the draft holds 25.0: the later entity has overwritten
    the slot the earlier one had set. *)
Theorem temperature_slot_overwritten (C : Collaborators) :
  let text := u "Температура воздуха 22 градуса, позже 25 градусов" in
  temp_parser text = [(20, 30); (38, 49)] ->
  exists d e1 e2,
    extract_animal_info text = Ok d /\
    filter (is_kind Temperature) (entities d) = [e1; e2] /\
    e_start e1 = 20 /\ e_start e2 = 38 /\
    near_body_marker text e1 = false /\
    near_body_marker text e2 = false /\
    e_value e1 = Some (S754_finite false (22 * 2 ^ 48) (-48)) /\
    e_value e2 = Some (S754_finite false (25 * 2 ^ 48) (-48)) /\
    env_temperature (environment d) = e_value e2 /\
    env_temperature (environment d) <> e_value e1.
Proof.
  intros text Hspans.
  pose proof (extract_animal_info_ok text) as Hd.
  pose proof (temperature_entities text) as Htemp.
  rewrite Hspans in Htemp. eval_rhs_in Htemp.
  match type of Htemp with
  | _ = [?a; ?b] => set (e1 := a) in *; set (e2 := b) in *
  end.
  eexists. exists e1, e2.
  split; [exact Hd|].
  rewrite synthesize_entities.
  split; [exact Htemp|].
  assert (Henv : env_temperature
                   (environment
                      (synthesize text
                         (sort_by_start
                            (_extract_natasha_entities text
                             ++ custom_entities_of text
                             ++ regex_entities_of text)))) = e_value e2).
  { apply (temperature_last_wins text _ [e1] [] e2 Htemp);
      vm_compute; reflexivity. }
  do 6 (split; [vm_compute; reflexivity|]).
  split; [exact Henv|].
  rewrite Henv. vm_compute. discriminate.
Qed.

(** The theorem at work on collaborators that find the two temperatures
    alone. *)
Lemma temperature_slot_overwritten_witness :
  exists d e1 e2,
    @extract_animal_info (temperature_only [(20, 30); (38, 49)])
      (u "Температура воздуха 22 градуса, позже 25 градусов") = Ok d /\
    filter (is_kind Temperature) (entities d) = [e1; e2] /\
    e_start e1 = 20 /\ e_start e2 = 38 /\
    near_body_marker (u "Температура воздуха 22 градуса, позже 25 градусов") e1
    = false /\
    near_body_marker (u "Температура воздуха 22 градуса, позже 25 градусов") e2
    = false /\
    e_value e1 = Some (S754_finite false (22 * 2 ^ 48) (-48)) /\
    e_value e2 = Some (S754_finite false (25 * 2 ^ 48) (-48)) /\
    env_temperature (environment d) = e_value e2 /\
    env_temperature (environment d) <> e_value e1.
Proof.
  apply (temperature_slot_overwritten (temperature_only [(20, 30); (38, 49)])).
  reflexivity.
Defined.

(** ** The mapper: the species fallback *)

Lemma skipn_len_nil (n : nat) (s : str) :
  (List.length s <= n)%nat -> skipn n s = [].
Proof. apply skipn_all2. Qed.

Lemma find_at_eq (sub s : str) (i : Z) :
  find_at sub s i
  = if startswith s sub then i
    else match s with
         | [] => -1
         | _ :: s' => find_at sub s' (i + 1)
         end.
Proof. now destruct s. Qed.

Lemma contains_eq (sub s : str) :
  contains sub s
  = startswith s sub
    || match s with
       | [] => false
       | _ :: s' => contains sub s'
       end.
Proof. now destruct s. Qed.

Lemma find_at_range (sub s : str) (i : Z) :
  find_at sub s i = -1 \/ i <= find_at sub s i <= i + len s.
Proof.
  revert i. induction s as [|c s IH]; intros i; rewrite find_at_eq.
  - destruct (startswith [] sub); [right; unfold len; simpl; lia | now left].
  - destruct (startswith (c :: s) sub).
    + right. unfold len. cbn [List.length]. lia.
    + destruct (IH (i + 1)) as [H|H]; [now left|].
      right. unfold len in *. cbn [List.length]. lia.
Qed.

(** [find] returns the offset of an occurrence, and no occurrence starts
    before it. *)
Lemma find_at_occurrence (sub s : str) (i : Z) :
  find_at sub s i <> -1 ->
  let k := Z.to_nat (find_at sub s i - i) in
  startswith (skipn k s) sub = true /\
  forall j, (j < k)%nat -> startswith (skipn j s) sub = false.
Proof.
  revert i. induction s as [|c s IH]; intros i; rewrite find_at_eq.
  - destruct (startswith [] sub) eqn:Hsw; [|congruence].
    intros _. rewrite Z.sub_diag. simpl. split; [exact Hsw | lia].
  - destruct (startswith (c :: s) sub) eqn:Hsw.
    + intros _. rewrite Z.sub_diag. simpl. split; [exact Hsw | lia].
    + intros Hne. destruct (find_at_range sub s (i + 1)) as [H|H]; [congruence|].
      destruct (IH (i + 1) Hne) as [Hocc Hfirst]. cbv zeta in *.
      replace (Z.to_nat (find_at sub s (i + 1) - i))
        with (S (Z.to_nat (find_at sub s (i + 1) - (i + 1)))) by lia.
      split; [exact Hocc|].
      intros [|j] Hj; [exact Hsw|]. apply Hfirst. lia.
Qed.

Lemma contains_find_at (sub s : str) (i : Z) :
  0 <= i -> contains sub s = true <-> find_at sub s i <> -1.
Proof.
  revert i. induction s as [|c s IH]; intros i Hi;
    rewrite find_at_eq, contains_eq.
  - destruct (startswith [] sub); simpl; split; (lia || congruence).
  - destruct (startswith (c :: s) sub); simpl; [split; [lia|reflexivity]|].
    apply IH. lia.
Qed.

Lemma startswith_nil (s : str) : startswith s [] = true.
Proof. now destruct s. Qed.

Lemma find_at_char (c : Z) (s : str) (i : Z) :
  0 <= i ->
  match up_to_char c s with
  | Some p => find_at [c] s i = i + len p
  | None => find_at [c] s i = -1
  end.
Proof.
  revert i. induction s as [|d s IH]; intros i Hi; simpl; [reflexivity|].
  rewrite startswith_nil, andb_true_r, (Z.eqb_sym c d).
  destruct (d =? c).
  - unfold len. simpl. lia.
  - specialize (IH (i + 1) ltac:(lia)).
    destruct (up_to_char c s) as [p|]; [|exact IH].
    rewrite IH. unfold len. cbn [List.length]. lia.
Qed.

Lemma up_to_char_prefix (c : Z) (s p : str) :
  up_to_char c s = Some p ->
  firstn (List.length p) s = p /\ (List.length p < List.length s)%nat.
Proof.
  revert p. induction s as [|d s IH]; intros p; simpl; [discriminate|].
  destruct (d =? c).
  - intros [= <-]. simpl. split; [reflexivity | lia].
  - destruct (up_to_char c s) as [q|]; [|discriminate].
    intros [= <-]. destruct (IH q eq_refl) as [Hq Hlen]. simpl.
    rewrite Hq. split; [reflexivity | lia].
Qed.

Lemma slice_from_to (s : str) (a b : Z) :
  0 <= a <= b -> b <= len s ->
  slice s a b = firstn (Z.to_nat (b - a)) (skipn (Z.to_nat a) s).
Proof.
  intros Hab Hb. unfold slice, slice_bound.
  destruct (Z.ltb_spec a 0); [lia|]. destruct (Z.ltb_spec b 0); [lia|].
  now rewrite !Z.min_l by lia.
Qed.

(** [s.find(c, start)] and the text of [s] from [start] to what it
    returns, for a non-negative [start]. *)
Lemma find_from_char (s : str) (c start : Z) :
  0 <= start ->
  match up_to_char c (skipn (Z.to_nat start) s) with
  | Some p =>
      find_from s [c] start <> -1 /\
      slice s start (find_from s [c] start) = p
  | None => find_from s [c] start = -1
  end.
Proof.
  intros Hstart. unfold find_from.
  destruct (Z.ltb_spec start 0) as [|_]; [lia|].
  destruct (Z.ltb_spec (len s) start) as [Hout|Hin].
  - rewrite skipn_len_nil by (unfold len in Hout; lia). reflexivity.
  - pose proof (find_at_char c (skipn (Z.to_nat start) s) start Hstart) as Hf.
    destruct (up_to_char c (skipn (Z.to_nat start) s)) as [p|] eqn:Hp;
      [|exact Hf].
    destruct (up_to_char_prefix _ _ _ Hp) as [Hpre Hlen].
    rewrite length_skipn in Hlen.
    rewrite Hf. unfold len in *. split; [lia|].
    rewrite slice_from_to by (unfold len; lia).
    replace (Z.to_nat (start + Z.of_nat (List.length p) - start))
      with (List.length p) by lia.
    exact Hpre.
Qed.

Lemma slice_to_end (s : str) (start : Z) :
  0 <= start -> slice s start (len s) = skipn (Z.to_nat start) s.
Proof.
  intros Hstart. unfold slice, slice_bound.
  destruct (Z.ltb_spec start 0); [lia|].
  destruct (Z.ltb_spec (len s) 0); [unfold len in *; lia|].
  rewrite Z.min_id.
  destruct (Z.le_gt_cases start (len s)) as [Hin|Hout].
  - rewrite Z.min_l by lia. apply firstn_all2.
    rewrite length_skipn. unfold len. lia.
  - rewrite Z.min_r by lia. rewrite Z.sub_diag. simpl.
    symmetry. apply skipn_len_nil. unfold len in Hout. lia.
Qed.

Lemma start_idx_nonneg (lower : str -> str) (transcription : str) :
  0 <= find (lower transcription) observation_pattern + len observation_pattern.
Proof.
  unfold find.
  destruct (find_at_range observation_pattern (lower transcription) 0) as [H|H];
    [rewrite H | ]; change (len observation_pattern) with 13; lia.
Qed.

(** The text the mapper takes as the label. *)
Lemma animal_text_of_label (lower : str -> str) (transcription : str) :
  animal_text_of lower transcription
  = strip (up_to_point_else_comma (after_marker lower transcription)).
Proof.
  unfold animal_text_of, after_marker, up_to_point_else_comma.
  pose proof (start_idx_nonneg lower transcription) as Hnn.
  set (start_idx := find (lower transcription) observation_pattern
                    + len observation_pattern) in *.
  change (u ".") with [46]. change (u ",") with [44].
  pose proof (find_from_char transcription 46 start_idx Hnn) as Hpoint.
  destruct (up_to_char 46 (skipn (Z.to_nat start_idx) transcription)) as [p|].
  - destruct Hpoint as [Hne Hslice].
    destruct (Z.eqb_spec (find_from transcription [46] start_idx) (-1)) as [|_];
      [congruence|].
    rewrite <- Z.eqb_neq in Hne. rewrite Hne. now rewrite Hslice.
  - rewrite Hpoint. simpl (-1 =? -1).
    pose proof (find_from_char transcription 44 start_idx Hnn) as Hcomma.
    destruct (up_to_char 44 (skipn (Z.to_nat start_idx) transcription)) as [p|].
    + destruct Hcomma as [Hne Hslice].
      rewrite <- Z.eqb_neq in Hne. rewrite Hne. now rewrite Hslice.
    + rewrite Hcomma. simpl (-1 =? -1). now rewrite slice_to_end.
Qed.

Lemma species_of_records (lower : str -> str) (d : Draft)
      (audio_path transcription : str) :
  a_species (db_animal (_prepare_db_records lower d audio_path transcription))
  = or_unknown (fallback_species lower (name d) (species d) transcription).
Proof. reflexivity. Qed.

(** C2, as the code has it.  When name or species is unset (None or empty)
    and the pattern "наблюдение за" occurs in the lowered transcription,
    the fallback label is the transcription from just after the first
    occurrence of the pattern up to the first point after it, or, when no
    point follows, up to the first comma after it, or, when neither
    follows, up to the end, stripped of the blanks around it; the species
    of the Animal tuple is the draft's species when that is set, else the
    label when the label is not empty, else "Unknown". *)
Theorem species_fallback_label (lower : str -> str) (d : Draft)
        (audio_path transcription : str) :
  truthy_str (name d) = false \/ truthy_str (species d) = false ->
  contains observation_pattern (lower transcription) = true ->
  let i := Z.to_nat (find (lower transcription) observation_pattern) in
  let label :=
    strip (up_to_point_else_comma (after_marker lower transcription)) in
  startswith (skipn i (lower transcription)) observation_pattern = true /\
  (forall j, (j < i)%nat ->
             startswith (skipn j (lower transcription)) observation_pattern
             = false) /\
  a_species (db_animal (_prepare_db_records lower d audio_path transcription))
  = if truthy_str (species d) then or_unknown (species d)
    else if PyStr.truthy label then label
         else u "Unknown".
Proof.
  intros Hunset Hin. cbv zeta.
  assert (Hfound : find_at observation_pattern (lower transcription) 0 <> -1)
    by (apply contains_find_at; [lia | exact Hin]).
  pose proof (find_at_occurrence _ _ _ Hfound) as Hocc. cbv zeta in Hocc.
  rewrite Z.sub_0_r in Hocc. destruct Hocc as [Hocc Hfirst].
  split; [exact Hocc|]. split; [exact Hfirst|].
  rewrite species_of_records. unfold fallback_species.
  rewrite Hin, animal_text_of_label.
  assert (Hcond : negb (truthy_str (name d)) || negb (truthy_str (species d))
                  = true).
  { destruct Hunset as [H|H]; rewrite H; simpl;
      [reflexivity | apply orb_true_r]. }
  rewrite Hcond.
  destruct (truthy_str (species d)) eqn:Hsp.
  - now rewrite andb_false_r.
  - rewrite andb_true_r.
    destruct (PyStr.truthy
                (strip (up_to_point_else_comma
                          (after_marker lower transcription)))) eqn:Hlabel.
    + unfold or_unknown. simpl. now rewrite Hlabel.
    + unfold or_unknown. now rewrite Hsp.
Qed.

(** The theorem at work: the label stops at the point, whatever comma
    comes before it. *)
Lemma species_fallback_label_witness :
  a_species
    (db_animal
       (_prepare_db_records lower_basic (initial_draft []) (u "obs.wav")
          (u "Запись. Наблюдение за тигром, он спит. Конец.")))
  = u "тигром, он спит".
Proof.
  apply (species_fallback_label lower_basic (initial_draft []) (u "obs.wav")
           (u "Запись. Наблюдение за тигром, он спит. Конец.")).
  - left. reflexivity.
  - vm_compute. reflexivity.
Defined.

(** C2 as the spec words it fails.  In "наблюдение за тигром, он спит."
    the comma comes first after the pattern, so the text up to whichever
    of the two terminators comes first is " тигром"; the mapper's species
    is "тигром, он спит", the text up to the point. *)
Lemma species_label_runs_past_comma :
  a_species
    (db_animal
       (_prepare_db_records lower_basic (initial_draft []) (u "obs.wav")
          (u "наблюдение за тигром, он спит.")))
  = u "тигром, он спит" /\
  up_to_terminator
    (after_marker lower_basic (u "наблюдение за тигром, он спит."))
  = u " тигром" /\
  u "тигром, он спит" <> u " тигром" /\
  u "тигром, он спит" <> strip (u " тигром").
Proof.
  split; [vm_compute; reflexivity|].
  split; [vm_compute; reflexivity|].
  split; vm_compute; discriminate.
Qed.

(** ** The mapper: payloads *)

(** The Measurement payload is there exactly when a measurement has a true
    value: a float other than zero. *)
Lemma measurement_payload_present (lower : str -> str) (d : Draft)
      (audio_path transcription : str) :
  db_measurement (_prepare_db_records lower d audio_path transcription)
  = if truthy_float (m_weight (measurements d))
       || truthy_float (m_length (measurements d))
       || truthy_float (m_temperature (measurements d))
       || truthy_float (m_age (measurements d))
    then Some (mkMeasurementRecord (m_weight (measurements d))
                                   (m_length (measurements d))
                                   None
                                   (m_temperature (measurements d)))
    else None.
Proof. reflexivity. Qed.

(** The Feeding payload is there exactly when the food type is a non-empty
    string or the quantity a float other than zero. *)
Lemma feeding_payload_present (lower : str -> str) (d : Draft)
      (audio_path transcription : str) :
  db_feeding (_prepare_db_records lower d audio_path transcription)
  = if truthy_str (fd_food_type (feeding d))
       || truthy_float (fd_quantity (feeding d))
    then Some (mkFeedingRecord (fd_food_type (feeding d))
                               (fd_quantity (feeding d)) None)
    else None.
Proof. reflexivity. Qed.

(** The draft of "Вес 0 килограммов" when the weight parser reports
    "0 килограммов": its weight is the float 0.0 and nothing else is set. *)
Lemma zero_weight_draft :
  exists d,
    @extract_animal_info (weight_only [(4, 17)]) (u "Вес 0 килограммов") = Ok d /\
    measurements d = mkMeasurements (Some (S754_zero false)) None None None.
Proof.
  eexists. split; [apply extract_animal_info_ok|]. vm_compute. reflexivity.
Qed.

(** C3, on a draft whose weight is the float 0.0 and whose other
    measurements are unset: a measurement is non-null, and the mapper emits
    no Measurement payload. *)
Theorem zero_measurement_dropped (lower : str -> str) (d : Draft)
        (audio_path transcription : str) :
  measurements d = mkMeasurements (Some (S754_zero false)) None None None ->
  m_weight (measurements d) <> None /\
  db_measurement (_prepare_db_records lower d audio_path transcription) = None.
Proof.
  intros Hm. rewrite measurement_payload_present, Hm. simpl.
  split; [discriminate | reflexivity].
Qed.

(** The theorem at work on the draft of "Вес 0 килограммов". *)
Lemma zero_measurement_dropped_witness :
  m_weight
    (measurements (synthesize (u "Вес 0 килограммов")
                     [mkEntity (u "0 килограммов") Weight 4 17
                               (Some (S754_zero false)) None])) <> None /\
  db_measurement
    (_prepare_db_records lower_basic
       (synthesize (u "Вес 0 килограммов")
          [mkEntity (u "0 килограммов") Weight 4 17
                    (Some (S754_zero false)) None])
       (u "obs.wav") (u "Вес 0 килограммов")) = None.
Proof.
  apply (zero_measurement_dropped lower_basic). reflexivity.
Defined.

(** What a Measurement payload holds when the mapper emits one: the
    draft's weight, length and temperature and a null height; the draft's
    age is in none of its fields.  For a draft whose only measurement is
    age the payload, when emitted, is the empty one, and it is emitted when
    the age is a float other than zero. *)
Lemma measurement_payload_contents (lower : str -> str) (d : Draft)
      (audio_path transcription : str) :
  let out := _prepare_db_records lower d audio_path transcription in
  (forall p,
      db_measurement out = Some p ->
      r_weight p = m_weight (measurements d) /\
      r_length p = m_length (measurements d) /\
      r_height p = None /\
      r_temperature p = m_temperature (measurements d)) /\
  (forall a,
      measurements d = mkMeasurements None None None a ->
      (forall p, db_measurement out = Some p -> p = empty_measurement) /\
      (truthy_float a = true -> db_measurement out = Some empty_measurement)).
Proof.
  cbv zeta. rewrite measurement_payload_present. split.
  - intros p.
    destruct (truthy_float (m_weight (measurements d))
              || truthy_float (m_length (measurements d))
              || truthy_float (m_temperature (measurements d))
              || truthy_float (m_age (measurements d))); [|discriminate].
    intros [= <-]. simpl. repeat split.
  - intros a Hm. rewrite Hm. simpl. split.
    + intros p. destruct (truthy_float a); [|discriminate]. now intros [= <-].
    + now intros ->.
Qed.

(** The draft of "Ему 0 лет" when the age pattern matches "0 лет": its age
    is the float 0.0 and no other measurement is set. *)
Lemma zero_age_draft :
  exists d,
    @extract_animal_info (age_only [(4, 9)]) (u "Ему 0 лет") = Ok d /\
    measurements d = mkMeasurements None None None (Some (S754_zero false)).
Proof.
  eexists. split; [apply extract_animal_info_ok|]. vm_compute. reflexivity.
Qed.

(** C10, on a draft whose only measurement is an age of 0.0: the draft has
    an age, and the mapper emits no Measurement payload at all, where a
    draft whose only measurement is age is to give the payload with its
    four fields null. *)
Theorem age_only_payload_missing (lower : str -> str) (d : Draft)
        (audio_path transcription : str) :
  measurements d = mkMeasurements None None None (Some (S754_zero false)) ->
  m_age (measurements d) <> None /\
  m_weight (measurements d) = None /\
  m_length (measurements d) = None /\
  m_temperature (measurements d) = None /\
  db_measurement (_prepare_db_records lower d audio_path transcription) = None /\
  db_measurement (_prepare_db_records lower d audio_path transcription)
  <> Some empty_measurement.
Proof.
  intros Hm. rewrite measurement_payload_present, Hm. simpl.
  repeat split; (discriminate || reflexivity).
Qed.

(** The theorem at work on the draft of "Ему 0 лет". *)
Lemma age_only_payload_missing_witness :
  db_measurement
    (_prepare_db_records lower_basic
       (synthesize (u "Ему 0 лет")
          [mkEntity (u "0 лет") Age 4 9 (Some (S754_zero false)) None])
       (u "obs.wav") (u "Ему 0 лет")) = None.
Proof.
  apply (age_only_payload_missing lower_basic
           (synthesize (u "Ему 0 лет")
              [mkEntity (u "0 лет") Age 4 9 (Some (S754_zero false)) None])
           (u "obs.wav") (u "Ему 0 лет")).
  reflexivity.
Defined.

(** ** The mapper: the Animal tuple *)

Lemma or_unknown_nonempty (x : option str) : or_unknown x <> [].
Proof.
  unfold or_unknown. destruct x as [[|c s]|]; simpl; discriminate.
Qed.

Lemma fallback_species_set (lower : str -> str) (n : option str) (s : str)
      (transcription : str) :
  s <> [] -> fallback_species lower n (Some s) transcription = Some s.
Proof.
  intros Hs. unfold fallback_species.
  assert (Ht : truthy_str (Some s) = true) by (destruct s; [contradiction | reflexivity]).
  rewrite Ht, andb_false_r.
  destruct (negb (truthy_str n) || negb true); [|reflexivity].
  now destruct (contains observation_pattern (lower transcription)).
Qed.

Lemma fallback_species_empty (lower : str -> str) (n : option str)
      (transcription : str) :
  or_unknown (fallback_species lower n (Some []) transcription)
  = or_unknown (fallback_species lower n None transcription).
Proof.
  unfold fallback_species. simpl. rewrite !orb_true_r, !andb_true_r.
  destruct (contains observation_pattern (lower transcription)); [|reflexivity].
  now destruct (PyStr.truthy (animal_text_of lower transcription)).
Qed.

Lemma name_of_records (lower : str -> str) (d : Draft)
      (audio_path transcription : str) :
  a_name (db_animal (_prepare_db_records lower d audio_path transcription))
  = or_unknown (name d).
Proof. reflexivity. Qed.

(** C9.  In the Animal tuple an empty name, or an empty species, gives what
    an unset one gives: "Unknown" for the name, and for the species the
    fallback label or "Unknown".  The component is the draft's value when,
    and only when, that value is a non-empty string. *)
Theorem empty_identity_as_unset (lower : str -> str) (d : Draft)
        (audio_path transcription : str) :
  let records := fun x => _prepare_db_records lower x audio_path transcription in
  a_name (db_animal (records (set_name d (Some [])))) = u "Unknown" /\
  a_name (db_animal (records (set_name d None))) = u "Unknown" /\
  a_species (db_animal (records (set_species d (Some []))))
  = a_species (db_animal (records (set_species d None))) /\
  (contains observation_pattern (lower transcription) = false ->
   a_species (db_animal (records (set_species d (Some [])))) = u "Unknown" /\
   a_species (db_animal (records (set_species d None))) = u "Unknown") /\
  (forall s,
      a_name (db_animal (records (set_name d (Some s)))) = s <-> s <> []) /\
  (forall s,
      a_species (db_animal (records (set_species d (Some s)))) = s <-> s <> []).
Proof.
  cbv zeta.
  split; [reflexivity|]. split; [reflexivity|].
  split; [rewrite !species_of_records; apply fallback_species_empty|].
  split.
  { intros Hout. rewrite !species_of_records. unfold fallback_species.
    rewrite Hout. simpl. rewrite !orb_true_r. split; reflexivity. }
  split.
  - intros s. rewrite name_of_records. simpl. split.
    + intros H Hs. subst s. now apply or_unknown_nonempty in H.
    + intros Hs. destruct s; [contradiction | reflexivity].
  - intros s. rewrite species_of_records. simpl. split.
    + intros H Hs. subst s. now apply or_unknown_nonempty in H.
    + intros Hs. rewrite fallback_species_set by exact Hs.
      destruct s; [contradiction | reflexivity].
Qed.

(** The theorem at work on a transcription without the pattern. *)
Lemma empty_identity_as_unset_witness :
  a_species
    (db_animal
       (_prepare_db_records lower_basic (set_species (initial_draft []) (Some []))
          (u "obs.wav") (u "Тигр спит."))) = u "Unknown" /\
  a_species
    (db_animal
       (_prepare_db_records lower_basic (set_species (initial_draft []) None)
          (u "obs.wav") (u "Тигр спит."))) = u "Unknown".
Proof.
  apply (proj1 (proj2 (proj2 (proj2
           (empty_identity_as_unset lower_basic (initial_draft [])
              (u "obs.wav") (u "Тигр спит.")))))).
  vm_compute. reflexivity.
Defined.

(* ===================================================================== *)
(** * Further properties of the extractor *)
(* ===================================================================== *)

(** ** The entities of a text *)

Lemma span_entities_wf (text : str) (spans : list (Z * Z)) (k : EntityKind)
      (b : bool) :
  tagger_kind k = false -> b = numeric_kind k ->
  Forall (entity_wf text) (span_entities text spans k b).
Proof.
  intros Hk Hb. unfold span_entities. apply Forall_forall.
  intros e He. apply in_map_iff in He as [[start stop] [<- _]].
  unfold entity_wf. simpl. subst b.
  destruct (numeric_kind k) eqn:Hn.
  - repeat split; (congruence || reflexivity).
  - repeat split; (congruence || reflexivity).
Qed.

Lemma natasha_entities_wf {C : Collaborators} (text : str) :
  Forall (entity_wf text) (_extract_natasha_entities text).
Proof.
  unfold _extract_natasha_entities. apply Forall_forall.
  intros e He. apply in_map_iff in He as [sp [<- _]].
  unfold entity_wf. simpl.
  destruct (span_type sp); simpl; repeat split; congruence.
Qed.

Lemma collected_wf {C : Collaborators} (text : str) :
  Forall (entity_wf text)
         (_extract_natasha_entities text ++ custom_entities_of text
          ++ regex_entities_of text).
Proof.
  unfold custom_entities_of, regex_entities_of.
  repeat (apply Forall_app; split);
    try apply natasha_entities_wf;
    apply span_entities_wf; reflexivity.
Qed.

(** X1.  Every entity [extract_entities] returns is well formed: it
    carries a value only if its kind is weight, length, temperature,
    percentage or age, and then the value is the number read from its own
    text; it carries a normal form only if it comes from the tagger; and,
    unless it comes from the tagger, its text is the slice
    [text[start:end]] of the transcript. *)
Theorem extracted_entities_well_formed (C : Collaborators) (text : str) :
  exists es,
    extract_entities text = Ok es /\ Forall (entity_wf text) es.
Proof.
  eexists. split; [apply extract_entities_ok|].
  eapply Permutation_Forall; [apply sort_by_start_perm | apply collected_wf].
Qed.

Lemma in_span_entities (text : str) (spans : list (Z * Z)) (k : EntityKind)
      (b : bool) (e : Entity) :
  In e (span_entities text spans k b) <->
  exists start stop,
    In (start, stop) spans /\
    e = mkEntity (slice text start stop) k start stop
                 (if b then numeric_value (slice text start stop) else None)
                 None.
Proof.
  unfold span_entities. rewrite in_map_iff. split.
  - intros [[start stop] [<- Hin]]. now exists start, stop.
  - intros [start [stop [Hin ->]]]. now exists (start, stop).
Qed.

Lemma in_natasha_entities {C : Collaborators} (text : str) (e : Entity) :
  In e (_extract_natasha_entities text) ->
  In (e_start e, e_end e) (spans_of_kind text (e_type e)).
Proof.
  unfold _extract_natasha_entities. rewrite in_map_iff.
  intros [sp [<- Hin]]. simpl.
  destruct (span_type sp) eqn:Ht; simpl; unfold ner_spans_of;
    apply in_map_iff; exists sp; (split; [reflexivity|]);
    apply filter_In; (split; [exact Hin|]); now rewrite Ht.
Qed.

Lemma natasha_entity_of_span {C : Collaborators} (text : str) (t : NerType)
      (span : Z * Z) :
  In span (ner_spans_of text t) ->
  exists e,
    In e (_extract_natasha_entities text) /\
    e_type e = match t with
               | PER => Person | LOC => Location | ORG => Organization
               end /\
    (e_start e, e_end e) = span.
Proof.
  unfold ner_spans_of, _extract_natasha_entities. rewrite in_map_iff.
  intros [sp [<- Hin]]. apply filter_In in Hin as [Hin Ht].
  eexists. split; [apply in_map_iff; exists sp; split; [reflexivity|exact Hin]|].
  simpl. split; [|reflexivity].
  destruct (span_type sp), t; (discriminate || reflexivity).
Qed.

Lemma span_entity_of_span (text : str) (spans : list (Z * Z)) (k : EntityKind)
      (b : bool) (span : Z * Z) :
  In span spans ->
  exists e,
    In e (span_entities text spans k b) /\
    e_type e = k /\ (e_start e, e_end e) = span.
Proof.
  intros Hin. destruct span as [start stop].
  eexists. split.
  - apply in_span_entities. exists start, stop. split; [exact Hin|reflexivity].
  - split; reflexivity.
Qed.

Lemma length_span_entities (text : str) (spans : list (Z * Z))
      (k : EntityKind) (b : bool) :
  List.length (span_entities text spans k b) = List.length spans.
Proof. apply length_map. Qed.

(** X2.  [extract_entities] makes one entity of every span an extractor
    reports and nothing else: each entity has the span and the kind of a
    reported span, each reported span has its entity, and the number of
    entities is the number of reported spans; overlapping or repeated
    spans are all kept. *)
Theorem entities_are_the_reported_spans (C : Collaborators) (text : str) :
  exists es,
    extract_entities text = Ok es /\
    (forall e, In e es ->
               In (e_start e, e_end e) (spans_of_kind text (e_type e))) /\
    (forall k span,
        In span (spans_of_kind text k) ->
        exists e, In e es /\ e_type e = k /\ (e_start e, e_end e) = span) /\
    List.length es
    = (List.length (ner_spans text)
       + List.length (weight_parser text) + List.length (length_parser text)
       + List.length (temp_parser text) + List.length (animal_parser text)
       + List.length (behavior_parser text) + List.length (health_parser text)
       + List.length (food_parser text)
       + List.length (date_pattern text) + List.length (time_pattern text)
       + List.length (percentage_pattern text)
       + List.length (age_pattern text))%nat.
Proof.
  eexists. split; [apply extract_entities_ok|].
  set (all := _extract_natasha_entities text ++ custom_entities_of text
              ++ regex_entities_of text).
  assert (Hperm := sort_by_start_perm all).
  split; [|split].
  - intros e He. apply (Permutation_in _ (Permutation_sym Hperm)) in He.
    unfold all, custom_entities_of, regex_entities_of in He.
    repeat rewrite in_app_iff in He.
    repeat match type of He with
           | _ \/ _ => destruct He as [He|He]
           end;
      try (now apply in_natasha_entities);
      apply in_span_entities in He as [start [stop [Hin ->]]]; exact Hin.
  - intros k span Hin.
    assert (Hall : exists e, In e all /\ e_type e = k
                             /\ (e_start e, e_end e) = span).
    { unfold all, custom_entities_of, regex_entities_of.
      destruct k; simpl in Hin;
        try (destruct (natasha_entity_of_span text _ span Hin)
              as [e [He [Hk Hs]]];
             exists e; repeat rewrite in_app_iff; tauto);
        match goal with
        | |- context [span_entities text ?sp ?kk ?b] =>
            match type of Hin with
            | In _ sp =>
                destruct (span_entity_of_span text sp kk b span Hin)
                  as [e [He [Hk Hs]]];
                exists e; repeat rewrite in_app_iff; tauto
            end
        end. }
    destruct Hall as [e [He Hrest]]. exists e.
    split; [exact (Permutation_in _ Hperm He) | exact Hrest].
  - rewrite <- (Permutation_length Hperm).
    unfold all, custom_entities_of, regex_entities_of, _extract_natasha_entities.
    repeat rewrite length_app. rewrite length_map, !length_span_entities. lia.
Qed.

(** ** The draft of a text *)

(** X3.  The draft of a text lists, under [entities], exactly the sorted
    entities [extract_entities] returns, whether the loop used them for a
    slot or not. *)
Theorem draft_lists_every_entity (C : Collaborators) (text : str) :
  exists es d,
    extract_entities text = Ok es /\
    extract_animal_info text = Ok d /\
    entities d = es /\
    Sorted le_start (entities d).
Proof.
  eexists. eexists.
  split; [apply extract_entities_ok|].
  split; [apply extract_animal_info_ok|].
  rewrite synthesize_entities. split; [reflexivity|].
  apply sort_by_start_sorted.
Qed.

Lemma route_temperature_last (text : str) (l : list Entity)
      (slots : option PyFloat.float * option PyFloat.float) :
  fold_left (route_temperature text) l slots
  = (match last_match (near_body_marker text) l with
     | Some e => e_value e
     | None => fst slots
     end,
     match last_match (fun e => negb (near_body_marker text e)) l with
     | Some e => e_value e
     | None => snd slots
     end).
Proof.
  revert slots. induction l as [|e l IH]; intros slots.
  - now destruct slots.
  - simpl. rewrite IH. unfold route_temperature.
    destruct (last_match (near_body_marker text) l),
      (last_match (fun x => negb (near_body_marker text x)) l),
      (near_body_marker text e); reflexivity.
Qed.

Lemma last_match_filter (P Q : Entity -> bool) (l : list Entity) :
  last_match Q (filter P l) = last_match (fun e => P e && Q e) l.
Proof.
  induction l as [|e l IH]; [reflexivity|]. simpl.
  destruct (P e); simpl; rewrite IH; [reflexivity|].
  now destruct (last_match (fun x => P x && Q x) l).
Qed.

(** X4.  After the synthesis of any entity sequence each temperature slot
    holds the value of the last temperature entity routed to it, and is
    [None] when none is routed to it: [measurements.temperature] that of
    the last one with the marker "тела" in its window,
    [environment.temperature] that of the last one without. *)
Theorem temperature_slots_hold_last (text : str) (es : list Entity) :
  m_temperature (measurements (synthesize text es))
  = value_of (last_match (routed_to_body text) es) /\
  env_temperature (environment (synthesize text es))
  = value_of (last_match (routed_to_environment text) es).
Proof.
  pose proof (synthesize_temperature_slots text es) as H.
  rewrite route_temperature_last, !last_match_filter in H.
  unfold temperature_slots in H. injection H as Hb He.
  unfold routed_to_body, routed_to_environment, value_of.
  rewrite Hb, He. split.
  - now destruct (last_match _ es).
  - now destruct (last_match _ es).
Qed.

(** The quantity the join leaves in the draft. *)
Lemma synthesize_quantity (text : str) (es : list Entity) :
  fd_quantity (feeding (synthesize text es))
  = match first_food es with
    | Some food_entity => value_of (List.find (near_weight food_entity) es)
    | None => None
    end.
Proof.
  unfold synthesize. destruct (first_food es) as [food_entity|].
  - rewrite quantity_scan_find.
    destruct (List.find (near_weight food_entity) es); simpl.
    + reflexivity.
    + now rewrite fold_quantity.
  - now rewrite fold_quantity.
Qed.

(** X5.  In the draft of any entity sequence a feeding quantity never
    stands without a food type: without a food entity both are [None],
    whatever weights the sequence holds, and whenever the quantity is set
    the food type is set. *)
Theorem quantity_needs_food (text : str) (es : list Entity) :
  (first_of Food es = None ->
   feeding (synthesize text es) = mkFeedingInfo None None) /\
  (fd_quantity (feeding (synthesize text es)) <> None ->
   fd_food_type (feeding (synthesize text es)) <> None).
Proof.
  pose proof (synthesize_quantity text es) as Hq.
  pose proof (synthesize_food_type text es) as Hf.
  unfold first_food in Hq. unfold first_of in *.
  destruct (List.find (is_kind Food) es) as [food_entity|]; split.
  - discriminate.
  - intros _. rewrite Hf. discriminate.
  - intros _. destruct (feeding (synthesize text es)). simpl in *. congruence.
  - intros H. now rewrite Hq in H.
Qed.

Lemma fold_humidity (text : str) (es : list Entity) (d : Draft) :
  env_humidity (environment (fold_left (synth_step text) es d))
  = env_humidity (environment d).
Proof.
  revert d. induction es as [|e es IH]; intros d; simpl; [reflexivity|].
  rewrite IH. revert d e. step_cases.
Qed.

(** X6.  No entity sets the humidity: in the draft of every text
    [environment.humidity] is [None], and so is the humidity of the
    Observation payload made of it. *)
Theorem humidity_never_set (C : Collaborators) (lower : str -> str)
        (audio_path text : str) :
  exists d,
    extract_animal_info text = Ok d /\
    env_humidity (environment d) = None /\
    o_humidity (db_observation (_prepare_db_records lower d audio_path text))
    = None.
Proof.
  eexists. split; [apply extract_animal_info_ok|].
  assert (H : forall es, env_humidity (environment (synthesize text es)) = None).
  { intros es.
    rewrite (synthesize_slot (fun x => env_humidity (environment x)))
      by reflexivity.
    now rewrite fold_humidity. }
  split; [apply H | apply H].
Qed.

(** ** Entities the loop does not read *)

Lemma step_set_entities (text : str) (d : Draft) (l : list Entity) (e : Entity) :
  synth_step text (set_entities d l) e = set_entities (synth_step text d e) l.
Proof.
  unfold synth_step. destruct (e_type e); simpl;
    repeat match goal with
           | |- context [match ?x with Some _ => _ | None => _ end] =>
               destruct x; simpl
           | |- context [if ?b then _ else _] => destruct b; simpl
           end;
    reflexivity.
Qed.

Lemma fold_set_entities (text : str) (es l : list Entity) (d : Draft) :
  fold_left (synth_step text) es (set_entities d l)
  = set_entities (fold_left (synth_step text) es d) l.
Proof.
  revert d. induction es as [|e es IH]; intros d; simpl; [reflexivity|].
  now rewrite step_set_entities, IH.
Qed.

Lemma step_unread (text : str) (d : Draft) (e : Entity) :
  draft_kind (e_type e) = false -> synth_step text d e = d.
Proof.
  unfold synth_step. destruct (e_type e); simpl; (discriminate || reflexivity).
Qed.

Lemma fold_filter_read (text : str) (es : list Entity) (d : Draft) :
  fold_left (synth_step text) (filter (fun e => draft_kind (e_type e)) es) d
  = fold_left (synth_step text) es d.
Proof.
  revert d. induction es as [|e es IH]; intros d; simpl; [reflexivity|].
  destruct (draft_kind (e_type e)) eqn:Hk; simpl.
  - apply IH.
  - now rewrite IH, (step_unread text d e Hk).
Qed.

Lemma find_filter_implied (P Q : Entity -> bool) (l : list Entity) :
  (forall e, P e = true -> Q e = true) ->
  List.find P (filter Q l) = List.find P l.
Proof.
  intros HPQ. induction l as [|e l IH]; simpl; [reflexivity|].
  destruct (Q e) eqn:Hq; simpl.
  - now rewrite IH.
  - destruct (P e) eqn:Hp; [|exact IH].
    rewrite (HPQ e Hp) in Hq. discriminate.
Qed.

Lemma synthesize_filter_read (text : str) (es : list Entity) :
  let read := filter (fun e => draft_kind (e_type e)) es in
  synthesize text read = set_entities (synthesize text es) read.
Proof.
  cbv zeta. set (read := filter (fun e => draft_kind (e_type e)) es).
  unfold synthesize, first_food.
  assert (Hfood : List.find (is_kind Food) read = List.find (is_kind Food) es).
  { apply find_filter_implied. intros e. unfold is_kind.
    now destruct (e_type e). }
  assert (Hfold : fold_left (synth_step text) read (initial_draft read)
                  = set_entities
                      (fold_left (synth_step text) es (initial_draft es)) read).
  { change (initial_draft read) with (set_entities (initial_draft es) read).
    rewrite fold_set_entities. unfold read. now rewrite fold_filter_read. }
  rewrite Hfood. destruct (List.find (is_kind Food) es) as [food_entity|].
  - rewrite !quantity_scan_find.
    assert (Hw : List.find (near_weight food_entity) read
                 = List.find (near_weight food_entity) es).
    { apply find_filter_implied. intros e. unfold near_weight, is_kind.
      now destruct (e_type e). }
    rewrite Hw, Hfold. now destruct (List.find (near_weight food_entity) es).
  - exact Hfold.
Qed.

(** X7.  Location, organization, date, time and percentage entities leave
    no trace in the slots of the draft: the synthesis of a sequence and the
    synthesis of the same sequence without them fill name, species,
    measurements, behavior, health status, feeding and environment alike;
    the drafts differ only in the entities they list. *)
Theorem unread_kinds_leave_no_trace (text : str) (es : list Entity) :
  same_slots (synthesize text es)
             (synthesize text (filter (fun e => draft_kind (e_type e)) es)).
Proof.
  pose proof (synthesize_filter_read text es) as H. cbv zeta in H.
  rewrite H. unfold same_slots. simpl. repeat split.
Qed.

(* ===================================================================== *)
(** * Further properties of the mapper *)
(* ===================================================================== *)

(** ** The fallback label *)

Lemma part_of_refl (s : str) : part_of s s.
Proof. exists [], []. now rewrite app_nil_r. Qed.

Lemma part_of_trans (a b c : str) : part_of a b -> part_of b c -> part_of a c.
Proof.
  intros [p1 [q1 ->]] [p2 [q2 ->]]. exists (p2 ++ p1), (q1 ++ q2).
  now rewrite <- !app_assoc.
Qed.

Lemma part_of_in (a b : str) (x : Z) : part_of a b -> In x a -> In x b.
Proof.
  intros [p [q ->]] Hx. rewrite !in_app_iff. tauto.
Qed.

Lemma skipn_part_of (n : nat) (s : str) : part_of (skipn n s) s.
Proof.
  exists (firstn n s), []. now rewrite app_nil_r, firstn_skipn.
Qed.

Lemma firstn_part_of (n : nat) (s : str) : part_of (firstn n s) s.
Proof.
  exists [], (skipn n s). simpl. now rewrite firstn_skipn.
Qed.

Lemma lstrip_part_of (s : str) : part_of (lstrip s) s.
Proof.
  induction s as [|c s IH]; simpl; [apply part_of_refl|].
  destruct (isspace c); [|apply part_of_refl].
  destruct IH as [p [q Hs]]. exists (c :: p), q. simpl. now rewrite <- Hs.
Qed.

Lemma part_of_rev (a b : str) : part_of a b -> part_of (rev a) (rev b).
Proof.
  intros [p [q ->]]. exists (rev q), (rev p).
  now rewrite !rev_app_distr, <- app_assoc.
Qed.

Lemma strip_part_of (s : str) : part_of (strip s) s.
Proof.
  unfold strip, rstrip.
  apply part_of_trans with (b := lstrip s); [|apply lstrip_part_of].
  rewrite <- (rev_involutive (lstrip s)) at 2.
  apply part_of_rev, lstrip_part_of.
Qed.

Lemma lstrip_head (s : str) :
  match lstrip s with [] => True | c :: _ => isspace c = false end.
Proof.
  induction s as [|c s IH]; simpl; [exact I|].
  destruct (isspace c) eqn:Hc; [exact IH | exact Hc].
Qed.

Lemma lstrip_snoc (l : str) (c : Z) :
  isspace c = false -> lstrip (l ++ [c]) = lstrip l ++ [c].
Proof.
  intros Hc. induction l as [|x l IH]; simpl.
  - now rewrite Hc.
  - destruct (isspace x); [exact IH | reflexivity].
Qed.

Lemma strip_no_outer_blank (s : str) : no_outer_blank (strip s).
Proof.
  unfold no_outer_blank, strip, rstrip. split.
  - pose proof (lstrip_head s) as Hh.
    destruct (lstrip s) as [|c t]; [exact I|].
    simpl rev. rewrite (lstrip_snoc _ _ Hh), rev_app_distr. exact Hh.
  - rewrite rev_involutive. apply lstrip_head.
Qed.

Lemma up_to_char_absent (c : Z) (s : str) :
  match up_to_char c s with
  | Some p => ~ In c p
  | None => ~ In c s
  end.
Proof.
  induction s as [|d s IH]; simpl; [tauto|].
  destruct (Z.eqb_spec d c) as [Heq|Hne]; [simpl; tauto|].
  destruct (up_to_char c s) as [p|]; simpl; tauto.
Qed.

Lemma up_to_point_else_comma_shape (s : str) :
  part_of (up_to_point_else_comma s) s /\ ~ In 46 (up_to_point_else_comma s).
Proof.
  unfold up_to_point_else_comma.
  pose proof (up_to_char_absent 46 s) as Hpoint.
  destruct (up_to_char 46 s) as [p|] eqn:Hp.
  - split; [|exact Hpoint].
    destruct (up_to_char_prefix _ _ _ Hp) as [<- _]. apply firstn_part_of.
  - destruct (up_to_char 44 s) as [p|] eqn:Hc.
    + destruct (up_to_char_prefix _ _ _ Hc) as [Hpre _].
      assert (Hpart : part_of p s) by (rewrite <- Hpre; apply firstn_part_of).
      split; [exact Hpart|]. intros Hin. apply Hpoint.
      exact (part_of_in _ _ _ Hpart Hin).
    + split; [apply part_of_refl | exact Hpoint].
Qed.

(** X8.  The text the mapper takes after the pattern "наблюдение за" as
    the species label is a contiguous part of the transcription, holds no
    point, and neither starts nor ends with a blank; and whatever the draft
    and the transcription, both components of the Animal tuple are
    non-empty strings: the name is the draft's name or "Unknown", the
    species is the draft's species, that label, or "Unknown". *)
Theorem animal_tuple_shape (lower : str -> str) (d : Draft)
        (audio_path transcription : str) :
  let label := animal_text_of lower transcription in
  let animal :=
    db_animal (_prepare_db_records lower d audio_path transcription) in
  (part_of label transcription /\ ~ In 46 label /\ no_outer_blank label) /\
  a_name animal <> [] /\
  a_species animal <> [] /\
  (name d = Some (a_name animal) \/ a_name animal = u "Unknown") /\
  (species d = Some (a_species animal) \/ a_species animal = label
   \/ a_species animal = u "Unknown").
Proof.
  cbv zeta. rewrite name_of_records, species_of_records.
  split.
  { rewrite animal_text_of_label.
    destruct (up_to_point_else_comma_shape (after_marker lower transcription))
      as [Hpart Hno].
    assert (Hlabel : part_of
                       (strip (up_to_point_else_comma
                                 (after_marker lower transcription)))
                       (up_to_point_else_comma
                          (after_marker lower transcription)))
      by apply strip_part_of.
    split.
    - apply part_of_trans with (b := after_marker lower transcription);
        [exact (part_of_trans _ _ _ Hlabel Hpart) | apply skipn_part_of].
    - split; [|apply strip_no_outer_blank].
      intros Hin. apply Hno. exact (part_of_in _ _ _ Hlabel Hin). }
  split; [apply or_unknown_nonempty|].
  split; [apply or_unknown_nonempty|].
  split.
  - unfold or_unknown. destruct (name d) as [[|c s]|]; simpl; auto.
  - unfold fallback_species, or_unknown.
    destruct (negb (truthy_str (name d)) || negb (truthy_str (species d)));
      [destruct (contains observation_pattern (lower transcription));
       [destruct (PyStr.truthy (animal_text_of lower transcription)) eqn:Hl;
        simpl |] |];
      destruct (species d) as [[|c s]|]; simpl; try rewrite Hl; auto.
Qed.

(** ** The Observation payload *)

Lemma rfind_char_at_last (c : Z) (s : str) (i last : Z) :
  (~ In c s /\ rfind_char_at c s i last = last) \/
  (exists pre post,
      s = pre ++ c :: post /\ ~ In c post /\
      rfind_char_at c s i last = i + len pre).
Proof.
  revert i last. induction s as [|d s IH]; intros i last; simpl.
  - left. tauto.
  - destruct (IH (i + 1) (if d =? c then i else last))
      as [[Hno Hr]|[pre [post [Hs [Hno Hr]]]]].
    + destruct (Z.eqb_spec d c) as [Heq|Hne].
      * right. exists [], s. subst d. simpl.
        split; [reflexivity|]. split; [exact Hno|].
        rewrite Hr. unfold len. simpl. lia.
      * left. split; [|exact Hr]. intros [H|H]; [congruence | now apply Hno].
    + right. exists (d :: pre), post. subst s.
      split; [reflexivity|]. split; [exact Hno|].
      rewrite Hr. unfold len. cbn [List.length]. lia.
Qed.

(** [basename] returns what follows the last slash of the path. *)
Lemma basename_split (p : str) :
  exists dir,
    p = dir ++ basename p /\
    ~ In 47 (basename p) /\
    (dir = [] \/ exists d, dir = d ++ [47]).
Proof.
  unfold basename, rfind_char.
  destruct (rfind_char_at_last 47 p 0 (-1))
    as [[Hno Hr]|[pre [post [Hp [Hno Hr]]]]].
  - rewrite Hr. simpl (-1 + 1). rewrite slice_to_end by lia. simpl.
    exists []. split; [reflexivity|]. split; [exact Hno | now left].
  - rewrite Hr, slice_to_end by (unfold len; lia).
    subst p. unfold len.
    replace (Z.to_nat (0 + Z.of_nat (List.length pre) + 1))
      with (List.length (pre ++ [47])) by (rewrite length_app; simpl; lia).
    replace (pre ++ 47 :: post) with ((pre ++ [47]) ++ post)
      by now rewrite <- app_assoc.
    rewrite skipn_app, skipn_all, Nat.sub_diag. simpl.
    exists (pre ++ [47]). split; [reflexivity|].
    split; [exact Hno | right; now exists pre].
Qed.

(** X9.  The Observation payload stores the file name, not the path:
    [audio_file] is what follows the last slash of [audio_path] (the path
    is a directory part, empty or ending with a slash, followed by
    [audio_file], and [audio_file] holds no slash); its notes and its
    transcription are both the whole transcription, and its temperature is
    the environment temperature of the draft, never the body temperature
    slot. *)
Theorem observation_payload (lower : str -> str) (d : Draft)
        (audio_path transcription : str) :
  let o := db_observation (_prepare_db_records lower d audio_path transcription) in
  (exists dir,
      audio_path = dir ++ o_audio_file o /\
      ~ In 47 (o_audio_file o) /\
      (dir = [] \/ exists d', dir = d' ++ [47])) /\
  o_notes o = transcription /\
  o_transcription o = transcription /\
  (forall v, o_temperature
               (db_observation
                  (_prepare_db_records lower (set_body_temperature d v)
                     audio_path transcription))
             = env_temperature (environment d)) /\
  (forall v, o_temperature
               (db_observation
                  (_prepare_db_records lower (set_env_temperature d v)
                     audio_path transcription))
             = v).
Proof.
  cbv zeta. split; [apply basename_split|]. repeat split.
Qed.

(** ** The Feeding payload of a synthesized draft *)

(** X10.  For the draft synthesized from any entity sequence the mapper
    emits no Feeding payload when the sequence has no food entity, whatever
    weights it holds; when its first food entity has a non-empty text, the
    payload is emitted with that text as food type and with the value of
    the first weight entity less than 20 positions from it as quantity,
    which is null when there is no such weight. *)
Theorem feeding_payload_of_draft (lower : str -> str) (text audio_path : str)
        (es : list Entity) :
  let out := _prepare_db_records lower (synthesize text es) audio_path text in
  (first_of Food es = None -> db_feeding out = None) /\
  (forall food_entity,
      first_of Food es = Some food_entity -> e_text food_entity <> [] ->
      db_feeding out
      = Some (mkFeedingRecord
                (Some (e_text food_entity))
                (value_of (List.find (weight_within_threshold food_entity) es))
                None)).
Proof.
  cbv zeta. rewrite feeding_payload_present.
  pose proof (synthesize_quantity text es) as Hq.
  pose proof (synthesize_food_type text es) as Hf.
  unfold first_food in Hq. unfold first_of in *.
  destruct (List.find (is_kind Food) es) as [f|]; split.
  - discriminate.
  - intros food_entity [= <-] Htext. rewrite Hf, Hq. simpl.
    rewrite (find_pointwise _ _ es (near_weight_threshold f)).
    destruct (e_text f); [contradiction | reflexivity].
  - intros _. rewrite Hf, Hq. reflexivity.
  - discriminate.
Qed.

(** The theorem at work: a food entity and no weight near it give a
    Feeding payload without quantity. *)
Lemma feeding_payload_of_draft_witness :
  db_feeding
    (_prepare_db_records lower_basic
       (synthesize (u "Тигр ест мясо")
          [mkEntity (u "мясо") Food 9 13 None None])
       (u "obs.wav") (u "Тигр ест мясо"))
  = Some (mkFeedingRecord (Some (u "мясо")) None None).
Proof.
  apply (proj2 (feeding_payload_of_draft lower_basic (u "Тигр ест мясо")
                  (u "obs.wav") [mkEntity (u "мясо") Food 9 13 None None])
           (mkEntity (u "мясо") Food 9 13 None None));
    [reflexivity | discriminate].
Defined.

(* ===================================================================== *)
(** * Properties of the pipeline and of the persistence step *)
(* ===================================================================== *)

(** X11.  [process_audio] raises only when the recognizer does: once the
    recognizer returns a transcription, the extraction and the mapping
    always return, and the result carries the recognizer's text and
    duration, the path it was given, the draft and the sorted entities of
    that text, and the records the mapper makes of that draft. *)
Theorem process_audio_composes (C : Collaborators) (lower : str -> str)
        (recognizer : str -> option TranscriptionResult)
        (total_time : PyFloat.float) (audio_path : str) :
  match recognizer audio_path with
  | None =>
      process_audio lower recognizer total_time audio_path
      = Raised RecognizerError
  | Some tr =>
      exists r,
        process_audio lower recognizer total_time audio_path = Returned r /\
        apr_audio_file r = audio_path /\
        apr_transcription r = tr_text tr /\
        apr_audio_duration r = tr_audio_duration tr /\
        extract_animal_info (tr_text tr) = Ok (apr_structured_data r) /\
        extract_entities (tr_text tr) = Ok (apr_entities r) /\
        apr_db_records r
        = _prepare_db_records lower (apr_structured_data r) audio_path
            (tr_text tr) /\
        o_transcription (db_observation (apr_db_records r)) = tr_text tr
  end.
Proof.
  unfold process_audio. destruct (recognizer audio_path) as [tr|];
    [|reflexivity].
  rewrite extract_animal_info_ok. eexists. split; [reflexivity|]. simpl.
  split; [reflexivity|]. split; [reflexivity|]. split; [reflexivity|].
  split; [reflexivity|].
  split; [rewrite synthesize_entities; apply extract_entities_ok|].
  split; reflexivity.
Qed.

(** ** Saving *)

Lemma str_eqb_eq (s t : str) : str_eqb s t = true <-> s = t.
Proof.
  revert t. induction s as [|c s IH]; intros [|d t]; simpl;
    try (split; (discriminate || reflexivity)).
  rewrite andb_true_iff, Z.eqb_eq, IH. split.
  - intros [-> ->]. reflexivity.
  - intros [= -> ->]. split; reflexivity.
Qed.

Lemma same_identity_eq (n s : str) (a : AnimalRow) :
  same_identity n s a = true <-> an_name a = n /\ an_species a = s.
Proof.
  unfold same_identity. now rewrite andb_true_iff, !str_eqb_eq.
Qed.

(** Open a hypothesis that says a save returned. *)
Ltac save_returned H :=
  unfold save_to_database in H;
  match type of H with
  | context [db_feeding ?r] =>
      destruct (db_feeding r) as [?f|] eqn:?Hfeeding;
      [ destruct (f_food_type f) eqn:?Hfood;
        [ destruct (f_quantity f) eqn:?Hquantity;
          [ | discriminate H ]
        | discriminate H ]
      | ];
      injection H as <- <-; cbn [saved_animal_id saved_observation_id
                                 animals observations measurements_table
                                 feedings an_id an_name an_species ob_id
                                 ob_animal_id]
  end.

(** X13.  A save that returns has found or created the animal of the
    result.  When a row of the animals table has the name and the species
    of the Animal record, the first such row is used and the table is left
    as it is; when none has, one row is appended with a new key, that name
    and species, and no age or enclosure.  The key returned is the key of
    that animal, and the observation appended to the observations table
    has the key returned, refers to that animal, and carries the
    transcription of the result. *)
Theorem save_finds_or_creates (next_id : list Z -> Z) (clock : nat -> Z)
        (db db' : Database) (result : AudioProcessingResult) (ids : SavedIds) :
  save_to_database next_id clock db result = (Returned ids, db') ->
  let n := a_name (db_animal (apr_db_records result)) in
  let s := a_species (db_animal (apr_db_records result)) in
  (exists a,
      In a (animals db') /\ an_id a = saved_animal_id ids /\
      an_name a = n /\ an_species a = s) /\
  (forall a,
      List.find (same_identity n s) (animals db) = Some a ->
      animals db' = animals db /\ saved_animal_id ids = an_id a) /\
  (List.find (same_identity n s) (animals db) = None ->
   animals db'
   = animals db
     ++ [mkAnimalRow (next_id (map an_id (animals db))) n s None None
                     (clock 0%nat) (clock 1%nat)] /\
   saved_animal_id ids = next_id (map an_id (animals db))) /\
  (exists o,
      observations db' = observations db ++ [o] /\
      ob_id o = saved_observation_id ids /\
      ob_animal_id o = Some (saved_animal_id ids) /\
      ob_transcription o
      = Some (o_transcription (db_observation (apr_db_records result))) /\
      ob_audio_file o
      = Some (o_audio_file (db_observation (apr_db_records result)))).
Proof.
  intros H. cbv zeta.
  set (n := a_name (db_animal (apr_db_records result))) in *.
  set (s := a_species (db_animal (apr_db_records result))) in *.
  assert (Hanimal :
            match List.find (same_identity n s) (animals db) with
            | Some a => an_name a = n /\ an_species a = s /\ In a (animals db)
            | None => True
            end).
  { destruct (List.find (same_identity n s) (animals db)) as [a|] eqn:Hfind;
      [|exact I].
    apply find_some in Hfind as [Hin Hsame].
    apply same_identity_eq in Hsame as [Hn Hs]. auto. }
  save_returned H;
    fold n s in Hanimal |- *;
    destruct (List.find (same_identity n s) (animals db)) as [a|];
    (split;
     [ eexists; split;
       [ first [ apply Hanimal | apply in_or_app; right; left; reflexivity ]
       | first [ split; [reflexivity | split; apply Hanimal]
               | repeat split ] ]
     | split;
       [ intros a' Ha'; first [ injection Ha' as <-; split; reflexivity
                              | discriminate Ha' ]
       | split;
         [ intros Hnone; first [ discriminate Hnone | split; reflexivity ]
         | eexists; split; [reflexivity | repeat split] ] ] ]).
Qed.

(** The theorem at work: the first save into an empty database. *)
Lemma save_finds_or_creates_witness :
  exists a,
    In a (animals
            (snd (save_to_database next_after_max ticking empty_database
                    quiet_result))) /\
    an_id a = 1 /\ an_name a = u "Unknown" /\ an_species a = u "Unknown".
Proof.
  exact (proj1 (save_finds_or_creates next_after_max ticking empty_database
                  (snd (save_to_database next_after_max ticking
                          empty_database quiet_result))
                  quiet_result (mkSavedIds 1 1) eq_refl)).
Defined.

Lemma find_app_first {A : Type} (P : A -> bool) (l l' : list A) :
  List.find P (l ++ l')
  = match List.find P l with
    | Some x => Some x
    | None => List.find P l'
    end.
Proof.
  induction l as [|x l IH]; simpl; [reflexivity|].
  now destruct (P x).
Qed.

Lemma same_identity_refl (a : AnimalRow) :
  same_identity (an_name a) (an_species a) a = true.
Proof. now apply same_identity_eq. Qed.

(** The animals table after a save that returned, and the key returned. *)
Lemma save_returned_animal (next_id : list Z -> Z) (clock : nat -> Z)
      (db db' : Database) (result : AudioProcessingResult) (ids : SavedIds) :
  save_to_database next_id clock db result = (Returned ids, db') ->
  let n := a_name (db_animal (apr_db_records result)) in
  let s := a_species (db_animal (apr_db_records result)) in
  match List.find (same_identity n s) (animals db) with
  | Some a => animals db' = animals db /\ saved_animal_id ids = an_id a
  | None =>
      animals db'
      = animals db
        ++ [mkAnimalRow (next_id (map an_id (animals db))) n s None None
                        (clock 0%nat) (clock 1%nat)] /\
      saved_animal_id ids = next_id (map an_id (animals db))
  end.
Proof.
  intros H. cbv zeta. save_returned H;
    destruct (List.find _ (animals db)); split; reflexivity.
Qed.

(** X14.  Two results with the same Animal record share one animal: when a
    save returns and a later save of a result with the same name and
    species returns too, the second returns the animal key the first
    returned and leaves the animals table as the first left it. *)
Theorem save_same_identity_twice (next_id : list Z -> Z)
        (clock1 clock2 : nat -> Z) (db db1 db2 : Database)
        (r1 r2 : AudioProcessingResult) (ids1 ids2 : SavedIds) :
  save_to_database next_id clock1 db r1 = (Returned ids1, db1) ->
  db_animal (apr_db_records r2) = db_animal (apr_db_records r1) ->
  save_to_database next_id clock2 db1 r2 = (Returned ids2, db2) ->
  saved_animal_id ids2 = saved_animal_id ids1 /\ animals db2 = animals db1.
Proof.
  intros H1 Hsame H2.
  apply save_returned_animal in H1. apply save_returned_animal in H2.
  cbv zeta in H1, H2. rewrite Hsame in H2.
  set (n := a_name (db_animal (apr_db_records r1))) in *.
  set (s := a_species (db_animal (apr_db_records r1))) in *.
  destruct (List.find (same_identity n s) (animals db)) as [a|] eqn:Hfind.
  - destruct H1 as [Han Hid]. rewrite Han, Hfind in H2.
    destruct H2 as [Han2 Hid2]. split; congruence.
  - destruct H1 as [Han Hid]. rewrite Han, find_app_first, Hfind in H2.
    simpl in H2.
    assert (Hnew : same_identity n s
                     (mkAnimalRow (next_id (map an_id (animals db))) n s
                                  None None (clock1 0%nat) (clock1 1%nat))
                   = true)
      by (apply same_identity_eq; split; reflexivity).
    rewrite Hnew in H2. destruct H2 as [Han2 Hid2]. simpl in Hid2.
    split; congruence.
Qed.

(** The theorem at work: the same quiet result saved twice. *)
Lemma save_same_identity_twice_witness :
  saved_animal_id (mkSavedIds 1 2) = saved_animal_id (mkSavedIds 1 1) /\
  animals
    (snd (save_to_database next_after_max ticking
            (snd (save_to_database next_after_max ticking empty_database
                    quiet_result))
            quiet_result))
  = animals
      (snd (save_to_database next_after_max ticking empty_database
              quiet_result)).
Proof.
  exact (save_same_identity_twice next_after_max ticking ticking
           empty_database
           (snd (save_to_database next_after_max ticking empty_database
                   quiet_result))
           (snd (save_to_database next_after_max ticking
                   (snd (save_to_database next_after_max ticking
                           empty_database quiet_result))
                   quiet_result))
           quiet_result quiet_result (mkSavedIds 1 1) (mkSavedIds 1 2)
           eq_refl eq_refl eq_refl).
Defined.

Lemma NoDup_snoc {A : Type} (l : list A) (x : A) :
  NoDup l -> ~ In x l -> NoDup (l ++ [x]).
Proof.
  intros Hl Hx. apply NoDup_app; [exact Hl | repeat constructor; auto |].
  intros y Hy [<-|[]]. now apply Hx.
Qed.

Lemma map_snoc {A B : Type} (f : A -> B) (l : list A) (x : A) :
  map f (l ++ [x]) = map f l ++ [f x].
Proof. now rewrite map_app. Qed.

(** The database a save leaves: either the one it found (it raised), or
    that one with an observation appended, with a measurement and a
    feeding appended when there is a payload for them, and with the animal
    appended when none had its identity; every appended row has the key
    the generator gives for its table and refers to the animal. *)
Lemma save_shape (next_id : list Z -> Z) (clock : nat -> Z)
      (db : Database) (result : AudioProcessingResult) :
  let db' := snd (save_to_database next_id clock db result) in
  let n := a_name (db_animal (apr_db_records result)) in
  let s := a_species (db_animal (apr_db_records result)) in
  db' = db \/
  exists animal o,
    an_name animal = n /\ an_species animal = s /\
    ((In animal (animals db) /\ animals db' = animals db) \/
     (List.find (same_identity n s) (animals db) = None /\
      an_id animal = next_id (map an_id (animals db)) /\
      animals db' = animals db ++ [animal])) /\
    observations db' = observations db ++ [o] /\
    ob_id o = next_id (map ob_id (observations db)) /\
    ob_animal_id o = Some (an_id animal) /\
    (measurements_table db' = measurements_table db \/
     exists m,
       measurements_table db' = measurements_table db ++ [m] /\
       ms_id m = next_id (map ms_id (measurements_table db)) /\
       ms_animal_id m = Some (an_id animal)) /\
    (feedings db' = feedings db \/
     exists f,
       feedings db' = feedings db ++ [f] /\
       fe_id f = next_id (map fe_id (feedings db)) /\
       fe_animal_id f = Some (an_id animal)).
Proof.
  cbv zeta. unfold save_to_database.
  set (n := a_name (db_animal (apr_db_records result))).
  set (s := a_species (db_animal (apr_db_records result))).
  assert (Hanimal :
            match List.find (same_identity n s) (animals db) with
            | Some a => an_name a = n /\ an_species a = s /\ In a (animals db)
            | None => True
            end).
  { destruct (List.find (same_identity n s) (animals db)) as [a|] eqn:Hfind;
      [|exact I].
    apply find_some in Hfind as [Hin Hsame].
    apply same_identity_eq in Hsame as [Hn Hs]. auto. }
  destruct (db_feeding (apr_db_records result)) as [f|];
    [destruct (f_food_type f); [destruct (f_quantity f)|]|];
    try (left; reflexivity);
    right; cbn [snd animals observations measurements_table feedings];
    (destruct (List.find (same_identity n s) (animals db)) as [a|];
     [ exists a
     | match goal with
       | |- context [animals db ++ [?x]] => exists x
       end ];
     match goal with
     | |- context [observations db ++ [?x]] => exists x
     end;
     (split; [first [apply Hanimal | reflexivity]|]);
     (split; [first [apply Hanimal | reflexivity]|]);
     (split;
      [first [left; split; [apply Hanimal | reflexivity]
             | right; split; [reflexivity | split; reflexivity] ]|]);
     (split; [reflexivity|]); (split; [reflexivity|]);
     (split; [reflexivity|]);
     (split;
      [ destruct (db_measurement (apr_db_records result));
        [ right; eexists; split; [reflexivity | split; reflexivity]
        | left; reflexivity ]
      | first [ left; reflexivity
              | right; eexists; split; [reflexivity | split; reflexivity] ]])).
Qed.

Lemma refers_to_animal_grows (db db' : Database) (x : option Z) :
  (forall a, In a (animals db) -> In a (animals db')) ->
  refers_to_animal db x -> refers_to_animal db' x.
Proof.
  intros Hsub [a [Hin Hx]]. exists a. auto.
Qed.

Lemma find_none_identity (n s : str) (l : list AnimalRow) :
  List.find (same_identity n s) l = None ->
  ~ In (n, s) (map (fun a => (an_name a, an_species a)) l).
Proof.
  intros Hnone Hin. apply in_map_iff in Hin as [a [Ha Hin]].
  injection Ha as Hn Hs.
  pose proof (find_none _ _ Hnone a Hin) as Hf.
  assert (same_identity n s a = true) by (apply same_identity_eq; auto).
  congruence.
Qed.

(** X15.  With a key generator that never repeats a key of the table,
    [save_to_database] keeps the database consistent, whether it returns
    or raises: the keys of each table stay pairwise distinct, every
    observation, measurement and feeding still refers to an animal of the
    animals table, and no two animals come to share name and species. *)
Theorem save_keeps_database_consistent (next_id : list Z -> Z)
        (clock : nat -> Z) (db : Database) (result : AudioProcessingResult) :
  fresh_keys next_id ->
  keys_unique db -> references_hold db -> identities_unique db ->
  let db' := snd (save_to_database next_id clock db result) in
  keys_unique db' /\ references_hold db' /\ identities_unique db'.
Proof.
  intros Hfresh Hkeys Hrefs Hident. cbv zeta.
  destruct (save_shape next_id clock db result)
    as [->|[animal [o [Hn [Hs [Han [Hobs [Hoid [Hoan [Hms Hfe]]]]]]]]]];
    [auto|].
  set (db' := snd (save_to_database next_id clock db result)) in *.
  destruct Hkeys as [Hka [Hko [Hkm Hkf]]].
  destruct Hrefs as [Hro [Hrm Hrf]].
  assert (Hsub : forall a, In a (animals db) -> In a (animals db')).
  { intros a Ha. destruct Han as [[_ ->]|[_ [_ ->]]];
      [exact Ha | apply in_or_app; now left]. }
  assert (Hin : In animal (animals db')).
  { destruct Han as [[Hin ->]|[_ [_ ->]]];
      [exact Hin | apply in_or_app; right; now left]. }
  assert (Hnew : refers_to_animal db' (Some (an_id animal)))
    by (exists animal; auto).
  split; [|split].
  - unfold keys_unique. repeat split.
    + destruct Han as [[_ ->]|[_ [Hid ->]]]; [exact Hka|].
      rewrite map_snoc, Hid. apply NoDup_snoc; [exact Hka | apply Hfresh].
    + rewrite Hobs, map_snoc, Hoid.
      apply NoDup_snoc; [exact Hko | apply Hfresh].
    + destruct Hms as [->|[m [-> [Hid _]]]]; [exact Hkm|].
      rewrite map_snoc, Hid. apply NoDup_snoc; [exact Hkm | apply Hfresh].
    + destruct Hfe as [->|[f [-> [Hid _]]]]; [exact Hkf|].
      rewrite map_snoc, Hid. apply NoDup_snoc; [exact Hkf | apply Hfresh].
  - unfold references_hold. repeat split.
    + rewrite Hobs. apply Forall_app. split.
      * eapply Forall_impl; [|exact Hro]. intros x.
        now apply refers_to_animal_grows.
      * constructor; [now rewrite Hoan | constructor].
    + assert (Hold : Forall (fun m => refers_to_animal db' (ms_animal_id m))
                            (measurements_table db)).
      { eapply Forall_impl; [|exact Hrm]. intros x.
        now apply refers_to_animal_grows. }
      destruct Hms as [->|[m [-> [_ Hman]]]]; [exact Hold|].
      apply Forall_app. split; [exact Hold|].
      constructor; [now rewrite Hman | constructor].
    + assert (Hold : Forall (fun f => refers_to_animal db' (fe_animal_id f))
                            (feedings db)).
      { eapply Forall_impl; [|exact Hrf]. intros x.
        now apply refers_to_animal_grows. }
      destruct Hfe as [->|[f [-> [_ Hfan]]]]; [exact Hold|].
      apply Forall_app. split; [exact Hold|].
      constructor; [now rewrite Hfan | constructor].
  - unfold identities_unique in *.
    destruct Han as [[_ ->]|[Hnone [_ ->]]]; [exact Hident|].
    rewrite map_snoc, Hn, Hs. apply NoDup_snoc; [exact Hident|].
    now apply find_none_identity.
Qed.

Lemma next_after_max_fresh : fresh_keys next_after_max.
Proof.
  assert (Hle : forall ids x, In x ids -> x <= fold_right Z.max 0 ids).
  { induction ids as [|y ids IH]; simpl; [tauto|].
    intros x [->|Hx]; [lia | specialize (IH x Hx); lia]. }
  intros ids Hin. apply Hle in Hin. unfold next_after_max in Hin. lia.
Qed.

(** The theorem at work: a save into the empty database. *)
Lemma save_keeps_database_consistent_witness :
  keys_unique
    (snd (save_to_database next_after_max ticking empty_database quiet_result))
  /\ references_hold
       (snd (save_to_database next_after_max ticking empty_database
               quiet_result))
  /\ identities_unique
       (snd (save_to_database next_after_max ticking empty_database
               quiet_result)).
Proof.
  apply (save_keeps_database_consistent next_after_max ticking empty_database
           quiet_result next_after_max_fresh).
  - repeat split; constructor.
  - repeat split; constructor.
  - constructor.
Defined.

(** ** From the audio file to the database *)

(** The Feeding payload of the draft synthesized from a sequence whose
    first food entity has a text. *)
Lemma synthesized_feeding_payload (lower : str -> str) (text audio_path : str)
      (es : list Entity) :
  db_feeding (_prepare_db_records lower (synthesize text es) audio_path text)
  = match first_of Food es with
    | Some food_entity =>
        if PyStr.truthy (e_text food_entity)
           || truthy_float
                (value_of (List.find (weight_within_threshold food_entity) es))
        then Some (mkFeedingRecord
                     (Some (e_text food_entity))
                     (value_of
                        (List.find (weight_within_threshold food_entity) es))
                     None)
        else None
    | None => None
    end.
Proof.
  rewrite feeding_payload_present.
  pose proof (synthesize_quantity text es) as Hq.
  pose proof (synthesize_food_type text es) as Hf.
  unfold first_food in Hq. unfold first_of in *.
  destruct (List.find (is_kind Food) es) as [f|]; rewrite Hf, Hq; simpl.
  - now rewrite (find_pointwise _ _ es (near_weight_threshold f)).
  - reflexivity.
Qed.

(** What a save does, by the payload it is given. *)
Lemma save_outcome (next_id : list Z -> Z) (clock : nat -> Z)
      (db : Database) (result : AudioProcessingResult) :
  if feeding_incomplete (apr_db_records result)
  then save_to_database next_id clock db result = (Raised IntegrityError, db)
  else exists ids,
      fst (save_to_database next_id clock db result) = Returned ids.
Proof.
  unfold feeding_incomplete, save_to_database.
  destruct (db_feeding (apr_db_records result)) as [f|].
  - destruct (f_food_type f), (f_quantity f); try reflexivity.
    eexists. reflexivity.
  - eexists. reflexivity.
Qed.

(** X16.  Processing an audio file and saving the result, when the
    recognizer returns a transcription: if the transcription has no food
    entity the result is saved; if its first food entity (with a non-empty
    text) has a weight entity with a value less than 20 positions away the
    result is saved; but if it has none, the save raises and the database
    is left as it was, so nothing of that recording is stored, not even
    its observation. *)
Theorem food_without_quantity_is_not_saved
        (C : Collaborators) (lower : str -> str)
        (recognizer : str -> option TranscriptionResult)
        (total_time : PyFloat.float) (next_id : list Z -> Z) (clock : nat -> Z)
        (db : Database) (file_path : str)
        (tr : TranscriptionResult) (es : list Entity) :
  recognizer file_path = Some tr ->
  extract_entities (tr_text tr) = Ok es ->
  let run :=
    process_and_save lower recognizer total_time next_id clock db file_path in
  (first_of Food es = None -> exists ids, fst run = Returned ids) /\
  (forall food_entity,
      first_of Food es = Some food_entity -> e_text food_entity <> [] ->
      let quantity :=
        value_of (List.find (weight_within_threshold food_entity) es) in
      (quantity = None -> run = (Raised IntegrityError, db)) /\
      (quantity <> None -> exists ids, fst run = Returned ids)).
Proof.
  intros Hrec Hes. cbv zeta. unfold process_and_save, process_audio.
  rewrite Hrec, extract_animal_info_ok.
  rewrite extract_entities_ok in Hes. injection Hes as Hes. rewrite Hes.
  match goal with
  | |- context [save_to_database next_id clock db ?r] =>
      pose proof (save_outcome next_id clock db r) as Hsave;
      set (result := r) in *
  end.
  assert (Hfeeding :
            db_feeding (apr_db_records result)
            = db_feeding (_prepare_db_records lower (synthesize (tr_text tr) es)
                            file_path (tr_text tr))) by reflexivity.
  rewrite synthesized_feeding_payload in Hfeeding.
  unfold feeding_incomplete in Hsave. rewrite Hfeeding in Hsave.
  split.
  - intros Hnone. rewrite Hnone in Hsave. exact Hsave.
  - intros food_entity Hfood Htext. rewrite Hfood in Hsave.
    destruct (e_text food_entity) as [|c t]; [contradiction|].
    simpl in Hsave. split.
    + intros Hq. rewrite Hq in Hsave. exact Hsave.
    + intros Hq.
      destruct (value_of
                  (List.find (weight_within_threshold food_entity) es));
        [exact Hsave | contradiction].
Qed.

(** The theorem at work: "Тигр ест мясо", the food parser reporting
    "мясо". *)
Lemma food_without_quantity_is_not_saved_witness :
  @process_and_save (food_only [(9, 13)]) lower_basic (hears (u "Тигр ест мясо"))
    (PyFloat.of_Z 1) next_after_max ticking empty_database (u "obs.wav")
  = (Raised IntegrityError, empty_database).
Proof.
  apply (proj2 (food_without_quantity_is_not_saved
                  (food_only [(9, 13)]) lower_basic
                  (hears (u "Тигр ест мясо")) (PyFloat.of_Z 1)
                  next_after_max ticking empty_database (u "obs.wav")
                  (mkTranscriptionResult (u "Тигр ест мясо")
                     (PyFloat.of_Z 1) (PyFloat.of_Z 3))
                  [mkEntity (u "мясо") Food 9 13 None None]
                  eq_refl eq_refl)
           (mkEntity (u "мясо") Food 9 13 None None));
    [reflexivity | discriminate | reflexivity].
Defined.

(* ===================================================================== *)
(** * The sign of the extracted numbers *)
(* ===================================================================== *)

Lemma shr_1_nonneg (mrs : shr_record) :
  0 <= shr_m mrs -> 0 <= shr_m (shr_1 mrs).
Proof.
  destruct mrs as [m r s]. simpl.
  destruct m as [|p|p]; [simpl; lia | | lia].
  intros _. destruct p; simpl; lia.
Qed.

Lemma iter_pos_shr_1_nonneg (p : positive) (mrs : shr_record) :
  0 <= shr_m mrs -> 0 <= shr_m (iter_pos shr_1 p mrs).
Proof.
  revert mrs. induction p as [p IH|p IH|]; intros mrs H; simpl.
  - apply IH, IH, shr_1_nonneg, H.
  - apply IH, IH, H.
  - apply shr_1_nonneg, H.
Qed.

Lemma shr_fexp_nonneg (prec emax m e : Z) (l : location) :
  0 <= m -> 0 <= shr_m (fst (shr_fexp prec emax m e l)).
Proof.
  intros Hm. unfold shr_fexp, shr.
  assert (H0 : 0 <= shr_m (shr_record_of_loc m l))
    by (destruct l as [|[]]; exact Hm).
  destruct (fexp prec emax (Zdigits2 m + e) - e) as [|p|p]; simpl;
    [exact H0 | apply iter_pos_shr_1_nonneg, H0 | exact H0].
Qed.

Lemma round_nearest_even_nonneg (m : Z) (l : location) :
  0 <= m -> 0 <= round_nearest_even m l.
Proof.
  intros Hm. unfold round_nearest_even.
  destruct l as [|[]]; try destruct (Z.even m); lia.
Qed.

Lemma binary_round_aux_nonnegative (prec emax m e : Z) (l : location) :
  0 <= m ->
  nonnegative_number (binary_round_aux prec emax false m e l) = true.
Proof.
  intros Hm. unfold binary_round_aux.
  pose proof (shr_fexp_nonneg prec emax m e l Hm) as H1.
  destruct (shr_fexp prec emax m e l) as [mrs' e']. simpl in H1.
  pose proof (shr_fexp_nonneg prec emax
                (round_nearest_even (shr_m mrs') (loc_of_shr_record mrs'))
                e' loc_Exact
                (round_nearest_even_nonneg _ _ H1)) as H2.
  destruct (shr_fexp prec emax
              (round_nearest_even (shr_m mrs') (loc_of_shr_record mrs'))
              e' loc_Exact) as [mrs'' e'']. simpl in H2.
  destruct (shr_m mrs'') as [|p|p]; [reflexivity | | lia].
  now destruct (e'' <=? emax - prec).
Qed.

Lemma of_decimal_nonnegative (m : Z) (k : nat) :
  nonnegative_number (PyFloat.of_decimal m k) = true.
Proof.
  unfold PyFloat.of_decimal.
  destruct m as [|pm|pm]; try reflexivity.
  destruct (10 ^ Z.of_nat k) as [|pd|pd]; try reflexivity.
  unfold SFdiv, SFdiv_core_binary.
  set (s := Z.min _ _).
  set (m' := match (0 - 0 - s) with
             | Z0 => Zpos pm
             | Zpos _ => Z.shiftl (Zpos pm) (0 - 0 - s)
             | Zneg _ => Z0
             end).
  assert (Hm' : 0 <= m').
  { unfold m'. destruct (0 - 0 - s); [lia | | lia].
    apply Z.shiftl_nonneg. lia. }
  pose proof (Z_div_mod m' (Zpos pd) ltac:(lia)) as Hdiv.
  destruct (Z.div_eucl m' (Zpos pd)) as [q r].
  simpl xorb. apply binary_round_aux_nonnegative.
  destruct Hdiv as [Heq Hr]. nia.
Qed.

Lemma span_entities_nonnegative (text : str) (spans : list (Z * Z))
      (k : EntityKind) (b : bool) :
  values_nonnegative (span_entities text spans k b).
Proof.
  unfold values_nonnegative, span_entities. apply Forall_forall.
  intros e He. apply in_map_iff in He as [[start stop] [<- _]]. simpl.
  destruct b; [|discriminate].
  unfold numeric_value.
  destruct (first_literal (slice text start stop)) as [[m d]|];
    [|discriminate].
  intros v [= <-]. apply of_decimal_nonnegative.
Qed.

(** X17.  No number the extractor reads is negative or undefined:
    [_extract_numeric_value] returns [None] or a float that is [+0.0],
    positive or [+inf], because whatever stands before the first digit of
    the span, a minus sign included, is skipped; hence no entity of a text
    carries a negative value, and no slot of its draft can hold a negative
    temperature, weight, length or age. *)
Theorem extracted_numbers_are_nonnegative :
  (forall span v,
      _extract_numeric_value span = Ok (Some v) ->
      nonnegative_number v = true) /\
  (forall pre span,
      existsb isdecimal pre = false ->
      _extract_numeric_value (pre ++ span) = _extract_numeric_value span) /\
  (forall (C : Collaborators) text,
      exists es,
        extract_entities text = Ok es /\ values_nonnegative es).
Proof.
  split; [|split].
  - intros span v. rewrite _extract_numeric_value_ok. unfold numeric_value.
    destruct (first_literal span) as [[m k]|]; [|discriminate].
    intros [= <-]. apply of_decimal_nonnegative.
  - intros pre span Hpre. rewrite !_extract_numeric_value_ok.
    unfold numeric_value, first_literal.
    now rewrite (skip_to_digit_app pre span Hpre).
  - intros C text. eexists. split; [apply extract_entities_ok|].
    unfold values_nonnegative.
    eapply Permutation_Forall; [apply sort_by_start_perm|].
    unfold custom_entities_of, regex_entities_of.
    repeat (apply Forall_app; split);
      try apply span_entities_nonnegative.
    unfold _extract_natasha_entities. apply Forall_forall.
    intros e He. apply in_map_iff in He as [sp [<- _]]. discriminate.
Qed.

(** The theorem at work: the minus sign of "-5 градусов" is not read. *)
Lemma extracted_numbers_are_nonnegative_witness :
  _extract_numeric_value (u "-5 градусов")
  = _extract_numeric_value (u "5 градусов").
Proof.
  apply (proj1 (proj2 extracted_numbers_are_nonnegative)
           (u "-") (u "5 градусов")).
  reflexivity.
Defined.

(* ===================================================================== *)
(** * From the entities to the Animal record *)
(* ===================================================================== *)

(** X18.  The Animal record of a synthesized draft, read off the entities:
    the name is the text of the first person entity and "Unknown" when
    there is none, the transcription never supplies it; the species is the
    text of the first species entity whenever there is one with a text,
    and only without a species entity is it the label cut out of the
    transcription, or "Unknown" when the pattern does not occur. *)
Theorem animal_record_of_entities (lower : str -> str)
        (text audio_path : str) (es : list Entity) :
  let animal :=
    db_animal (_prepare_db_records lower (synthesize text es) audio_path text) in
  (forall p, first_of Person es = Some p -> e_text p <> [] ->
             a_name animal = e_text p) /\
  (first_of Person es = None -> a_name animal = u "Unknown") /\
  (forall sp, first_of AnimalSpecies es = Some sp -> e_text sp <> [] ->
              a_species animal = e_text sp) /\
  (first_of AnimalSpecies es = None ->
   contains observation_pattern (lower text) = false ->
   a_species animal = u "Unknown") /\
  (first_of AnimalSpecies es = None ->
   contains observation_pattern (lower text) = true ->
   animal_text_of lower text <> [] ->
   a_species animal = animal_text_of lower text).
Proof.
  cbv zeta. rewrite name_of_records, species_of_records.
  rewrite synthesize_name, synthesize_species.
  split; [|split; [|split; [|split]]].
  - intros p -> Hp. simpl. destruct (e_text p); [contradiction|reflexivity].
  - intros ->. reflexivity.
  - intros sp -> Hsp. simpl. rewrite fallback_species_set by exact Hsp.
    destruct (e_text sp); [contradiction|reflexivity].
  - intros -> Hout. simpl. unfold fallback_species. rewrite Hout. simpl.
    now rewrite orb_true_r.
  - intros -> Hin Hlabel. simpl. unfold fallback_species.
    rewrite Hin. simpl. rewrite orb_true_r, andb_true_r.
    destruct (animal_text_of lower text); [contradiction|reflexivity].
Qed.

(** The theorem at work: a person entity names the animal. *)
Lemma animal_record_of_entities_witness :
  a_name
    (db_animal
       (_prepare_db_records lower_basic
          (synthesize (u "Барсик спит")
             [mkEntity (u "Барсик") Person 0 6 None (Some (u "Барсик"))])
          (u "obs.wav") (u "Барсик спит")))
  = u "Барсик".
Proof.
  apply (proj1 (animal_record_of_entities lower_basic (u "Барсик спит")
                  (u "obs.wav")
                  [mkEntity (u "Барсик") Person 0 6 None (Some (u "Барсик"))])
           (mkEntity (u "Барсик") Person 0 6 None (Some (u "Барсик"))));
    [reflexivity | discriminate].
Defined.
